(** * Vexo dashboard: the Library filter/sort engine and the Services
      poll/restart state machine

    A shallow embedding of
      - [vexo/dashboard/src/app/library/LibraryPageClient.tsx]
        (formatDuration, the derived vocabularies, filteredLibrary, the
        aggregate statistics, hasActiveFilters, clearFilters), and
      - the Services page (ServiceCard, fetchServices, handleRestart),
    followed by the properties the specification states about them. *)

From Stdlib Require Import String Ascii ZArith List Bool Lia.
From Stdlib Require Import Permutation Sorted DecimalString.
From Stdlib Require DecimalPos DecimalZ OrderedTypeEx.
Import ListNotations.

Local Open Scope string_scope.
Local Open Scope Z_scope.

(** ** The JavaScript built-ins the two pages call

    Strings are sequences of code units; the model keeps the code units
    below 256 (Rocq's [ascii]), on which [toLowerCase] and [trim] are the
    functions below.  Numbers are the integers the data model declares
    ([Z]); [NaN] only arises from [Date] parsing and is [None] in a
    [JSNumber]. *)

Module JS.

Definition JSNumber := option Z.

(** [a - b] on numbers, [NaN] being contagious. *)
Definition sub (a b : JSNumber) : JSNumber :=
  match a, b with
  | Some x, Some y => Some (x - y)
  | _, _ => None
  end.

(** [n || d] for a number: [0] is falsy. *)
Definition or_num (n d : Z) : Z := if n =? 0 then d else n.

(** [n || d] for a nullable number: [null] and [0] are falsy. *)
Definition or_null (n : option Z) (d : Z) : Z :=
  match n with
  | None => d
  | Some v => or_num v d
  end.

(** [s || d] for a string: the empty string is falsy. *)
Definition or_str (s d : string) : string :=
  match s with
  | EmptyString => d
  | _ => s
  end.

(** Truthiness of a string. *)
Definition truthy (s : string) : bool :=
  match s with
  | EmptyString => false
  | _ => true
  end.

(** [String.prototype.startsWith] at position 0. *)
Fixpoint startsWith (s q : string) {struct q} : bool :=
  match q, s with
  | EmptyString, _ => true
  | String c q', String d s' => Ascii.eqb c d && startsWith s' q'
  | String _ _, EmptyString => false
  end.

(** [String.prototype.includes]: [q] occurs in [s] at some position. *)
Fixpoint includes (s q : string) : bool :=
  startsWith s q ||
  match s with
  | EmptyString => false
  | String _ s' => includes s' q
  end.

(** [String.prototype.toLowerCase] on code units below 256: the letters
    A-Z and the Latin-1 capitals (0xC0-0xDE, the sign 0xD7 apart) move up
    by 32. *)
Definition lower_unit (c : ascii) : ascii :=
  let n := N_of_ascii c in
  if ((65 <=? n) && (n <=? 90))%N then ascii_of_N (n + 32)
  else if ((192 <=? n) && (n <=? 222) && negb (n =? 215))%N
       then ascii_of_N (n + 32)
       else c.

Fixpoint toLowerCase (s : string) : string :=
  match s with
  | EmptyString => EmptyString
  | String c s' => String (lower_unit c) (toLowerCase s')
  end.

(** White space and line terminators below 256: TAB, LF, VT, FF, CR, SP
    and NBSP. *)
Definition isWhiteSpace (c : ascii) : bool :=
  let n := N_of_ascii c in
  (((9 <=? n) && (n <=? 13)) || (n =? 32) || (n =? 160))%N.

Fixpoint trimStart (s : string) : string :=
  match s with
  | EmptyString => EmptyString
  | String c s' => if isWhiteSpace c then trimStart s' else s
  end.

Fixpoint trimEnd (s : string) : string :=
  match s with
  | EmptyString => EmptyString
  | String c s' =>
      match trimEnd s' with
      | EmptyString => if isWhiteSpace c then EmptyString
                       else String c EmptyString
      | t => String c t
      end
  end.

(** [String.prototype.trim]. *)
Definition trim (s : string) : string := trimEnd (trimStart s).

(** [String.prototype.split] with a one-unit separator; the result is
    never empty ([''.split(',')] is [['']]). *)
Fixpoint split (sep : ascii) (s : string) : list string :=
  match s with
  | EmptyString => [EmptyString]
  | String c s' =>
      if Ascii.eqb c sep then EmptyString :: split sep s'
      else match split sep s' with
           | [] => [String c EmptyString]
           | w :: ws => String c w :: ws
           end
  end.

(** [Number.prototype.toString] on an integer. *)
Definition toString (n : Z) : string := NilZero.string_of_int (Z.to_int n).

Fixpoint repeat_str (n : nat) (pad : string) : string :=
  match n with
  | O => EmptyString
  | S n' => pad ++ repeat_str n' pad
  end.

(** [String.prototype.padStart (targetLength, padString)]: the filler is
    [padString] repeated and cut to the missing length. *)
Definition padStart (s : string) (targetLength : nat) (pad : string)
  : string :=
  let fillLen := (targetLength - String.length s)%nat in
  match pad with
  | EmptyString => s
  | _ => substring 0 fillLen (repeat_str fillLen pad) ++ s
  end.

(** *** [Set]: unique values in insertion order *)

Section SetOps.
Context {A : Type} (eqb : A -> A -> bool).

Definition Set_has (x : A) (s : list A) : bool := existsb (eqb x) s.

Definition Set_add (x : A) (s : list A) : list A :=
  if Set_has x s then s else s ++ [x].

Definition Set_delete (x : A) (s : list A) : list A :=
  filter (fun y => negb (eqb x y)) s.

(** [new Set(iterable)]. *)
Definition Set_of (l : list A) : list A :=
  fold_left (fun s x => Set_add x s) l [].

End SetOps.

(** *** [Array.prototype.sort]

    ECMAScript asks of [sort] a rearrangement of the array.  When the
    comparator is consistent on the values of the array (it never gives
    [NaN], comparing equal is reflexive, the two orders of a pair have
    opposite signs, and "not after" is transitive), the result is in the
    order of the comparator and keeps the values that compare equal in
    the order they had: that list is unique and [stable_sort] computes
    it.  For any other comparator the order is implementation-defined:
    the engine of the host decides, and all that is known of its result
    is that it rearranges the array.  [SortCompare] reads a [NaN] from
    the comparator as [+0]. *)

Section Sort.
Context {A : Type} (comparefn : A -> A -> JSNumber).

Definition SortCompare (x y : A) : Z :=
  match comparefn x y with
  | None => 0
  | Some v => v
  end.

Fixpoint sort_insert (x : A) (l : list A) : list A :=
  match l with
  | [] => [x]
  | y :: l' => if 0 <? SortCompare x y then y :: sort_insert x l'
               else x :: l
  end.

(** The values in the order of the comparator, equal ones as they stood
    (insertion from the right). *)
Fixpoint stable_sort (l : list A) : list A :=
  match l with
  | [] => []
  | x :: l' => sort_insert x (stable_sort l')
  end.

Definition is_number (v : JSNumber) : bool :=
  match v with
  | Some _ => true
  | None => false
  end.

(** The requirements of a consistent comparator on the three values
    [x], [y], [z]. *)
Definition consistent_at (x y z : A) : bool :=
  is_number (comparefn x y)
  && (SortCompare x x =? 0)
  && implb (0 <? SortCompare x y) (SortCompare y x <? 0)
  && implb (SortCompare x y <? 0) (0 <? SortCompare y x)
  && implb ((SortCompare x y <=? 0) && (SortCompare y z <=? 0))
           (SortCompare x z <=? 0).

(** Whether the comparator is consistent on the values of [l]. *)
Definition consistent_onb (l : list A) : bool :=
  forallb (fun x =>
    forallb (fun y => forallb (fun z => consistent_at x y z) l) l) l.

End Sort.

(** The comparator of [sort()] without an argument, on strings: code
    unit order. *)
Definition default_compare (s t : string) : JSNumber :=
  match String.compare s t with
  | Lt => Some (-1)
  | Eq => Some 0
  | Gt => Some 1
  end.

(** The host functions whose result depends on the locale data, on the
    date grammar and on the sorting algorithm of the engine. *)
Class Host : Type := {
  (** [String.prototype.localeCompare]: negative, zero or positive. *)
  localeCompare : string -> string -> Z;
  (** [new Date(s).getTime()]: milliseconds, or [NaN] for an invalid
      date. *)
  Date_getTime : string -> JSNumber;
  (** The order in which the engine leaves an array whose comparator
      (given with [NaN] read as [+0]) is not consistent on it. *)
  engine_sort : forall A : Type, (A -> A -> Z) -> list A -> list A;
  (** The engine rearranges the array: it neither drops nor adds a
      value. *)
  engine_sort_permutes :
    forall (A : Type) (order : A -> A -> Z) (l : list A),
      Permutation l (engine_sort A order l)
}.

(** [array.sort(comparefn)], on a copy. *)
Definition Array_sort {H : Host} {A : Type}
  (comparefn : A -> A -> JSNumber) (l : list A) : list A :=
  if consistent_onb comparefn l then stable_sort comparefn l
  else engine_sort A (SortCompare comparefn) l.

End JS.

(** ** LibraryPageClient.tsx *)

Module Library.
Import JS.

Record LibraryItem : Type := {
  id : Z;
  title : string;
  artist_name : string;
  album : option string;
  release_year : option Z;
  duration_seconds : option Z;
  yt_id : option string;
  spotify_id : option string;
  genre : option string;
  contributors : option string;
  sources : option string;
  last_added : string;
  play_count : Z;
  like_count : Z;
  dislike_count : Z
}.

(** [if (!seconds) return '--:--'] takes [null] and [0] alike. *)
Definition formatDuration (seconds : option Z) : string :=
  match seconds with
  | None => "--:--"
  | Some n =>
      if n =? 0 then "--:--"
      else
        let mins := n / 60 in
        let secs := Z.rem n 60 in
        toString mins ++ ":" ++ padStart (toString secs) 2 "0"
  end.

(** The value of [sortBy]. *)
Inductive SortKey : Type := Recent | Title | Artist | Plays | Likes.

(** The four [useState] cells of the component. *)
Record FilterState : Type := {
  searchQuery : string;
  genreFilter : string;
  sourceFilter : string;
  sortBy : SortKey
}.

(** The state the component mounts with. *)
Definition initialState : FilterState :=
  {| searchQuery := ""; genreFilter := "all"; sourceFilter := "all";
     sortBy := Recent |}.

(** [field?.split(',').forEach(g => set.add(g.trim()))] for one item. *)
Definition addTokens (field : option string) (set : list string)
  : list string :=
  match field with
  | None => set
  | Some raw =>
      fold_left (fun s g => Set_add String.eqb (trim g) s)
                (split "," raw) set
  end.

(** The two vocabularies before [Array.from(...).sort()]. *)
Definition genreSet (initialLibrary : list LibraryItem) : list string :=
  fold_left (fun s item => addTokens (genre item) s) initialLibrary [].

Definition sourceSet (initialLibrary : list LibraryItem) : list string :=
  fold_left (fun s item => addTokens (sources item) s) initialLibrary [].

Definition allGenres {H : Host}
  (initialLibrary : list LibraryItem) : list string :=
  Array_sort default_compare (genreSet initialLibrary).

Definition allSources {H : Host}
  (initialLibrary : list LibraryItem) : list string :=
  Array_sort default_compare (sourceSet initialLibrary).

(** [field?.toLowerCase().includes(needle)]: [undefined], hence falsy,
    on a [null] field. *)
Definition includesLower (field : option string) (needle : string)
  : bool :=
  match field with
  | None => false
  | Some raw => includes (toLowerCase raw) needle
  end.

(** The three [filter] callbacks of [filteredLibrary]. *)
Definition matchesSearch (query : string) (item : LibraryItem) : bool :=
  includesLower (Some (title item)) query
  || includesLower (Some (artist_name item)) query
  || includesLower (album item) query.

Definition matchesGenre (genreFilter : string) (item : LibraryItem)
  : bool :=
  includesLower (genre item) (toLowerCase genreFilter).

Definition matchesSource (sourceFilter : string) (item : LibraryItem)
  : bool :=
  includesLower (sources item) (toLowerCase sourceFilter).

Section WithHost.
Context {H : Host}.

(** The comparator handed to [result.sort]. *)
Definition compareItems (sortBy : SortKey) (a b : LibraryItem)
  : JSNumber :=
  match sortBy with
  | Title => Some (localeCompare (or_str (title a) "")
                                 (or_str (title b) ""))
  | Artist => Some (localeCompare (or_str (artist_name a) "")
                                  (or_str (artist_name b) ""))
  | Plays => Some (or_num (play_count b) 0 - or_num (play_count a) 0)
  | Likes => Some (or_num (like_count b) 0 - or_num (like_count a) 0)
  | Recent => sub (Date_getTime (last_added b))
                  (Date_getTime (last_added a))
  end.

Definition filteredLibrary (initialLibrary : list LibraryItem)
  (st : FilterState) : list LibraryItem :=
  let result := initialLibrary in
  let result :=
    if truthy (searchQuery st) then
      let query := toLowerCase (searchQuery st) in
      filter (matchesSearch query) result
    else result in
  let result :=
    if negb (String.eqb (genreFilter st) "all") then
      filter (matchesGenre (genreFilter st)) result
    else result in
  let result :=
    if negb (String.eqb (sourceFilter st) "all") then
      filter (matchesSource (sourceFilter st)) result
    else result in
  Array_sort (compareItems (sortBy st)) result.

End WithHost.

(** The statistics of the header. *)
Definition uniqueArtists (initialLibrary : list LibraryItem) : nat :=
  List.length (Set_of String.eqb (map artist_name initialLibrary)).

Definition uniqueGenres {H : Host}
  (initialLibrary : list LibraryItem) : nat :=
  List.length (allGenres initialLibrary).

Definition totalPlays (initialLibrary : list LibraryItem) : Z :=
  fold_left (fun sum i => sum + or_num (play_count i) 0) initialLibrary 0.

Definition totalLikes (initialLibrary : list LibraryItem) : Z :=
  fold_left (fun sum i => sum + or_num (like_count i) 0) initialLibrary 0.

Definition totalDuration (initialLibrary : list LibraryItem) : Z :=
  fold_left (fun sum i => sum + or_null (duration_seconds i) 0)
            initialLibrary 0.

Definition totalHours (initialLibrary : list LibraryItem) : Z :=
  totalDuration initialLibrary / 3600.

Definition totalMins (initialLibrary : list LibraryItem) : Z :=
  Z.rem (totalDuration initialLibrary) 3600 / 60.

Definition hasActiveFilters (st : FilterState) : bool :=
  truthy (searchQuery st)
  || negb (String.eqb (genreFilter st) "all")
  || negb (String.eqb (sourceFilter st) "all").

(** The three setters of [clearFilters] run in one event handler and are
    applied together; [sortBy] has no setter there. *)
Definition clearFilters (st : FilterState) : FilterState :=
  {| searchQuery := ""; genreFilter := "all"; sourceFilter := "all";
     sortBy := sortBy st |}.

(** What one render shows. *)
Record Stats : Type := {
  songs : nat;
  artists : nat;
  genres : nat;
  plays : Z;
  likes : Z;
  hours : Z;
  mins : Z
}.

Record View : Type := {
  stats : Stats;
  genreOptions : list string;
  sourceOptions : list string;
  showClear : bool;
  resultCount : option (nat * nat);
  rows : list LibraryItem
}.

(** The [value]s of the two [select]s: [all] first, then the first 20
    genres, respectively every source. *)
Definition genreOptionValues {H : Host}
  (initialLibrary : list LibraryItem)
  : list string :=
  "all" :: firstn 20 (allGenres initialLibrary).

Definition sourceOptionValues {H : Host}
  (initialLibrary : list LibraryItem)
  : list string :=
  "all" :: allSources initialLibrary.

Section Render.
Context {H : Host}.

Definition LibraryPageClient (initialLibrary : list LibraryItem)
  (st : FilterState) : View :=
  let shown := filteredLibrary initialLibrary st in
  {| stats := {| songs := List.length initialLibrary;
                 artists := uniqueArtists initialLibrary;
                 genres := uniqueGenres initialLibrary;
                 plays := totalPlays initialLibrary;
                 likes := totalLikes initialLibrary;
                 hours := totalHours initialLibrary;
                 mins := totalMins initialLibrary |};
     genreOptions := genreOptionValues initialLibrary;
     sourceOptions := sourceOptionValues initialLibrary;
     showClear := hasActiveFilters st;
     resultCount :=
       if hasActiveFilters st
       then Some (List.length shown, List.length initialLibrary)
       else None;
     rows := shown |}.

End Render.

End Library.

(** ** The Services page *)

Module Services.
Import JS.

Inductive Status : Type := online | offline | restarting | starting.

Record Service : Type := {
  id : string;
  name : string;
  description : string;
  status : Status;
  uptime : option string;
  restartable : bool
}.

Definition BOT_API_URL : string := "/api/bot".

(** The four [useState] cells of [ServicesPage]. *)
Record PageState : Type := {
  services : list Service;
  restartingServices : list string;
  loading : bool;
  error : option string
}.

(** The state the page mounts with. *)
Definition initialPage : PageState :=
  {| services := []; restartingServices := []; loading := true;
     error := None |}.

(** The calls of the state setters; the two updaters of
    [setRestartingServices] ([prev => new Set(prev).add(id)] and
    [prev => { next.delete(id) }]) are named. *)
Inductive Action : Type :=
| setServices (l : list Service)
| setError (e : option string)
| setLoading (b : bool)
| addRestarting (serviceId : string)
| deleteRestarting (serviceId : string).

Definition apply_action (a : Action) (st : PageState) : PageState :=
  match a with
  | setServices l =>
      {| services := l; restartingServices := restartingServices st;
         loading := loading st; error := error st |}
  | setError e =>
      {| services := services st;
         restartingServices := restartingServices st;
         loading := loading st; error := e |}
  | setLoading b =>
      {| services := services st;
         restartingServices := restartingServices st;
         loading := b; error := error st |}
  | addRestarting i =>
      {| services := services st;
         restartingServices :=
           Set_add String.eqb i (restartingServices st);
         loading := loading st; error := error st |}
  | deleteRestarting i =>
      {| services := services st;
         restartingServices :=
           Set_delete String.eqb i (restartingServices st);
         loading := loading st; error := error st |}
  end.

(** What [response.json()] resolves to, as far as the page reads it: the
    promise rejects, or the value is [null] (a property access throws),
    or it is a value with the two properties [services] and [error],
    each possibly absent. *)
Inductive JsonOutcome : Type :=
| JsonReject (e : string)
| JsonNull
| JsonValue (j_services : option (list Service))
            (j_error : option string).

Record Response : Type := {
  resp_status : Z;
  resp_body : JsonOutcome
}.

(** [response.ok]: the status is in the range 200-299. *)
Definition ok (r : Response) : bool :=
  (200 <=? resp_status r) && (resp_status r <=? 299).

(** What [fetch] settles to: it rejects on a network error and resolves
    on every HTTP status. *)
Inductive FetchOutcome : Type :=
| NetworkError (e : string)
| Resolved (r : Response).

(** The effects of the page, in the order it performs them. *)
Inductive Event : Type :=
| EvFetch (method url : string)
| EvSleep (ms : Z)
| EvConsoleError (label err : string)
| EvSet (a : Action).

(** An [async] function: a tree of effects that ends with a value or a
    thrown error.  [Fetch], [Json] and [Sleep] are the [await]s at which
    the event loop runs other tasks. *)
Inductive Task (A : Type) : Type :=
| Ret (a : A)
| Throw (e : string)
| Fetch (method url : string) (k : FetchOutcome -> Task A)
| Json (r : Response) (k : JsonOutcome -> Task A)
| Sleep (ms : Z) (k : Task A)
| ConsoleError (label err : string) (k : Task A)
| SetState (a : Action) (k : Task A).

Arguments Ret {A} a.
Arguments Throw {A} e.
Arguments Fetch {A} method url k.
Arguments Json {A} r k.
Arguments Sleep {A} ms k.
Arguments ConsoleError {A} label err k.
Arguments SetState {A} a k.

Fixpoint bind {A B : Type} (t : Task A) (f : A -> Task B) : Task B :=
  match t with
  | Ret a => f a
  | Throw e => Throw e
  | Fetch m u k => Fetch m u (fun o => bind (k o) f)
  | Json r k => Json r (fun o => bind (k o) f)
  | Sleep ms k => Sleep ms (bind k f)
  | ConsoleError l e k => ConsoleError l e (bind k f)
  | SetState a k => SetState a (bind k f)
  end.

(** [try { t } catch (err) { h err }]. *)
Fixpoint try_catch {A : Type} (t : Task A) (h : string -> Task A)
  : Task A :=
  match t with
  | Ret a => Ret a
  | Throw e => h e
  | Fetch m u k => Fetch m u (fun o => try_catch (k o) h)
  | Json r k => Json r (fun o => try_catch (k o) h)
  | Sleep ms k => Sleep ms (try_catch k h)
  | ConsoleError l e k => ConsoleError l e (try_catch k h)
  | SetState a k => SetState a (try_catch k h)
  end.

(** [try { t } finally { f }]: [f] runs on both exits, and the exit of
    [t] stands unless [f] throws. *)
Fixpoint try_finally {A : Type} (t : Task A) (f : Task unit) : Task A :=
  match t with
  | Ret a => bind f (fun _ => Ret a)
  | Throw e => bind f (fun _ => Throw e)
  | Fetch m u k => Fetch m u (fun o => try_finally (k o) f)
  | Json r k => Json r (fun o => try_finally (k o) f)
  | Sleep ms k => Sleep ms (try_finally k f)
  | ConsoleError l e k => ConsoleError l e (try_finally k f)
  | SetState a k => SetState a (try_finally k f)
  end.

Declare Scope task_scope.
Delimit Scope task_scope with task.
Notation "x <- t1 ;; t2" := (bind t1 (fun x => t2))
  (at level 61, t1 at next level, right associativity) : task_scope.
Notation "t1 ;; t2" := (bind t1 (fun _ => t2))
  (at level 61, right associativity) : task_scope.
Local Open Scope task_scope.

(** [await fetch(url, { method })]. *)
Definition fetch (method url : string) : Task Response :=
  Fetch method url (fun o =>
    match o with
    | NetworkError e => Throw e
    | Resolved r => Ret r
    end).

(** [await response.json()], the value kept as its outcome. *)
Definition json (r : Response) : Task JsonOutcome :=
  Json r (fun o =>
    match o with
    | JsonReject e => Throw e
    | v => Ret v
    end).

(** [await new Promise(resolve => setTimeout(resolve, ms))]. *)
Definition sleep (ms : Z) : Task unit := Sleep ms (Ret tt).

Definition console_error (label err : string) : Task unit :=
  ConsoleError label err (Ret tt).

Definition set (a : Action) : Task unit := SetState a (Ret tt).

(** The list [fetchServices] falls back to. *)
Definition fallbackServices : list Service :=
  [ {| id := "bot";
       name := "Discord Bot";
       description :=
         "Core Discord bot handling commands and audio playback";
       status := offline;
       uptime := Some "—";
       restartable := true |};
    {| id := "dashboard";
       name := "Dashboard";
       description := "This Next.js web dashboard";
       status := online;
       uptime := Some "Running";
       restartable := false |} ].

(** [data.services], a [TypeError] on [null]. *)
Definition get_services (data : JsonOutcome)
  : Task (option (list Service)) :=
  match data with
  | JsonValue s _ => Ret s
  | _ => Throw "TypeError: Cannot read properties of null"
  end.

(** [data.error], a [TypeError] on [null]. *)
Definition get_error (data : JsonOutcome) : Task (option string) :=
  match data with
  | JsonValue _ e => Ret e
  | _ => Throw "TypeError: Cannot read properties of null"
  end.

(** [x || d] where [x] may be absent. *)
Definition or_list (x : option (list Service)) (d : list Service)
  : list Service :=
  match x with
  | Some l => l
  | None => d
  end.

Definition or_msg (x : option string) (d : string) : string :=
  match x with
  | Some s => or_str s d
  | None => d
  end.

Definition fetchServices : Task unit :=
  try_finally
    (try_catch
       (response <- fetch "GET" (BOT_API_URL ++ "/services") ;;
        (if negb (ok response)
         then Throw ("Failed to fetch services: "
                     ++ toString (resp_status response))
         else Ret tt) ;;
        data <- json response ;;
        s <- get_services data ;;
        set (setServices (or_list s [])) ;;
        set (setError None))
       (fun err =>
        console_error "Failed to fetch services:" err ;;
        set (setError (Some "Failed to connect to bot API")) ;;
        set (setServices fallbackServices)))
    (set (setLoading false)).

Definition handleRestart (serviceId : string) : Task unit :=
  set (addRestarting serviceId) ;;
  try_finally
    (try_catch
       (response <- fetch "POST" (BOT_API_URL ++ "/services/"
                                  ++ serviceId ++ "/restart") ;;
        (if negb (ok response)
         then data <- try_catch (json response)
                                (fun _ => Ret (JsonValue None None)) ;;
              e <- get_error data ;;
              Throw (or_msg e "Restart failed")
         else Ret tt) ;;
        sleep 5000 ;;
        fetchServices)
       (fun error => console_error "Failed to restart service:" error))
    (set (deleteRestarting serviceId)).

(** *** ServiceCard and its button *)

Record ServiceCardProps : Type := {
  service : Service;
  onRestart : Task unit;
  isRestarting : bool
}.

(** [disabled={isRestarting || !service.restartable}]. *)
Definition button_disabled (p : ServiceCardProps) : bool :=
  isRestarting p || negb (restartable (service p)).

(** A click on the button: a disabled button dispatches no [onClick]. *)
Definition button_click (p : ServiceCardProps) : Task unit :=
  if button_disabled p then Ret tt else onRestart p.

(** [actualStatus] of a card. *)
Definition actualStatus (p : ServiceCardProps) : Status :=
  if isRestarting p then restarting else status (service p).

(** The cards [ServicesPage] renders; the skeleton shown while [loading]
    has none. *)
Definition cards (st : PageState) : list ServiceCardProps :=
  if loading st then []
  else map (fun s =>
              {| service := s;
                 onRestart := handleRestart (id s);
                 isRestarting :=
                   Set_has String.eqb (id s) (restartingServices st) |})
           (services st).

(** The operator asks for a restart of [serviceId]: a click on the button
    of the card of that service, when one is on the page. *)
Definition restart (st : PageState) (serviceId : string) : Task unit :=
  match find (fun p => String.eqb (id (service p)) serviceId) (cards st)
  with
  | Some p => button_click p
  | None => Ret tt
  end.

(** *** Running a task

    The world answers each [fetch] (the answer may depend on when it is
    asked) and says what the other tasks of the event loop (the poll
    timer, other restarts) do to the state while this one is suspended
    at its [n]-th [await]. *)
Record World : Type := {
  net : nat -> string -> string -> FetchOutcome;
  others : nat -> PageState -> PageState
}.

(** The page state together with the number of [await]s passed. *)
Definition Config : Type := (PageState * nat)%type.

(** The result ([inl] for an error that escapes), the final
    configuration and the effects performed. *)
Fixpoint run {A : Type} (t : Task A) (w : World) (c : Config)
  : (string + A) * Config * list Event :=
  match t with
  | Ret a => (inr a, c, [])
  | Throw e => (inl e, c, [])
  | Fetch m u k =>
      let '(st, n) := c in
      let '(r, c', tr) := run (k (net w n m u)) w (others w n st, S n) in
      (r, c', EvFetch m u :: tr)
  | Json r k =>
      let '(st, n) := c in
      run (k (resp_body r)) w (others w n st, S n)
  | Sleep ms k =>
      let '(st, n) := c in
      let '(r, c', tr) := run k w (others w n st, S n) in
      (r, c', EvSleep ms :: tr)
  | ConsoleError l e k =>
      let '(r, c', tr) := run k w c in
      (r, c', EvConsoleError l e :: tr)
  | SetState a k =>
      let '(st, n) := c in
      let '(r, c', tr) := run k w (apply_action a st, n) in
      (r, c', EvSet a :: tr)
  end.

Definition result {A : Type} (x : (string + A) * Config * list Event)
  : string + A := fst (fst x).
Definition final {A : Type} (x : (string + A) * Config * list Event)
  : PageState := fst (snd (fst x)).
Definition trace {A : Type} (x : (string + A) * Config * list Event)
  : list Event := snd x.

End Services.

(** ** Vocabulary of the properties *)

Module Props.
Import JS.

(** [q] occurs in [s]: some prefix and suffix surround it. *)
Definition Substring (q s : string) : Prop :=
  exists a b : string, s = a ++ q ++ b.

Section Comparator.
Context {A : Type} (comparefn : A -> A -> JSNumber).

(** [a] may stand directly before [b]. *)
Definition ordered (a b : A) : Prop := SortCompare comparefn a b <= 0.

(** The comparator is consistent on the values of [l], in the sense of
    ECMAScript: on them it never gives [NaN], comparing equal is
    reflexive, the two orders of a pair have opposite signs, and "not
    after" is transitive. *)
Definition consistent_on (l : list A) : Prop :=
  forall x y z : A, In x l -> In y l -> In z l ->
    comparefn x y <> None
    /\ SortCompare comparefn x x = 0
    /\ (0 < SortCompare comparefn x y -> SortCompare comparefn y x < 0)
    /\ (SortCompare comparefn x y < 0 -> 0 < SortCompare comparefn y x)
    /\ (ordered x y -> ordered y z -> ordered x z).

(** The values that compare equal to [a]. *)
Definition same_rank (a x : A) : bool := SortCompare comparefn a x =? 0.

(** [out] is what ECMAScript asks of a sort of [l] under a consistent
    comparator: a rearrangement in order, with every class of equal
    values as it stood in [l]. *)
Definition stable_sort_of (l out : list A) : Prop :=
  Permutation l out
  /\ StronglySorted ordered out
  /\ forall a : A, In a l ->
       filter (same_rank a) out = filter (same_rank a) l.

End Comparator.

(** The decimal digit [d]. *)
Definition digit (d : Z) : ascii := ascii_of_N (48 + Z.to_N d).

(** [r] written with two decimal digits. *)
Definition two_digits (r : Z) : string :=
  String (digit (r / 10)) (String (digit (r mod 10)) EmptyString).

(** The sum of [f] over the items of [l]. *)
Definition sumZ {A : Type} (f : A -> Z) (l : list A) : Z :=
  fold_right (fun i s => f i + s) 0 l.

(** A missing duration counts for nothing. *)
Definition duration_or_0 (d : option Z) : Z :=
  match d with
  | Some v => v
  | None => 0
  end.

(** The host's [localeCompare] is a consistent comparator of strings:
    a string compares equal to itself, the two orders of a pair have
    opposite signs, and "not after" is transitive. *)
Definition locale_consistent (H : Host) : Prop :=
  forall s t u : string,
    localeCompare s s = 0
    /\ (0 < localeCompare s t -> localeCompare t s < 0)
    /\ (localeCompare s t < 0 -> 0 < localeCompare t s)
    /\ (localeCompare s t <= 0 -> localeCompare t u <= 0 ->
        localeCompare s u <= 0).

(** What makes the comparator of a sort key consistent on [l]: nothing
    more for the two counts; a consistent [localeCompare] for titles and
    artist names; for [Recent], that every [last_added] of [l] is a
    valid date. *)
Definition key_consistent (H : Host) (k : Library.SortKey)
  (l : list Library.LibraryItem) : Prop :=
  match k with
  | Library.Plays | Library.Likes => True
  | Library.Title | Library.Artist => locale_consistent H
  | Library.Recent =>
      forall x, In x l -> Date_getTime (Library.last_added x) <> None
  end.

End Props.

(** ** Inputs used in the examples *)

Module Examples.
Import JS.

(** A digit, as a number. *)
Definition digit_value (c : ascii) : option Z :=
  let n := Z.of_N (N_of_ascii c) in
  if (48 <=? n) && (n <=? 57) then Some (n - 48) else None.

(** The number written by the digits of [s]; [None] if [s] is empty or
    has another character. *)
Fixpoint digits_value (acc : Z) (s : string) : option Z :=
  match s with
  | EmptyString => None
  | String c EmptyString =>
      option_map (fun d => 10 * acc + d) (digit_value c)
  | String c s' =>
      match digit_value c with
      | Some d => digits_value (10 * acc + d) s'
      | None => None
      end
  end.

(** Days from 1970-01-01 to the civil date [y]-[m]-[d]. *)
Definition days_from_civil (y m d : Z) : Z :=
  let y' := if m <=? 2 then y - 1 else y in
  let era := y' / 400 in
  let yoe := y' - era * 400 in
  let doy := (153 * (if 2 <? m then m - 3 else m + 9) + 2) / 5 + d - 1 in
  let doe := yoe * 365 + yoe / 4 - yoe / 100 + doy in
  era * 146097 + doe - 719468.

(** A date parser that reads the form [Date.prototype.toISOString]
    writes, [YYYY-MM-DDTHH:mm:ss.sssZ], and takes every other string
    for an invalid date. *)
Definition iso_getTime (s : string) : JSNumber :=
  if negb (Nat.eqb (String.length s) 24) then None
  else if negb (String.eqb (substring 4 1 s) "-"
                && String.eqb (substring 7 1 s) "-"
                && String.eqb (substring 10 1 s) "T"
                && String.eqb (substring 13 1 s) ":"
                && String.eqb (substring 16 1 s) ":"
                && String.eqb (substring 19 1 s) "."
                && String.eqb (substring 23 1 s) "Z") then None
  else
    match digits_value 0 (substring 0 4 s),
          digits_value 0 (substring 5 2 s),
          digits_value 0 (substring 8 2 s),
          digits_value 0 (substring 11 2 s),
          digits_value 0 (substring 14 2 s),
          digits_value 0 (substring 17 2 s),
          digits_value 0 (substring 20 3 s) with
    | Some y, Some mo, Some d, Some h, Some mi, Some sec, Some ms =>
        if (1 <=? mo) && (mo <=? 12) && (1 <=? d) && (d <=? 31)
           && (h <=? 23) && (mi <=? 59) && (sec <=? 59)
        then Some ((((days_from_civil y mo d * 24 + h) * 60 + mi) * 60
                    + sec) * 1000 + ms)
        else None
    | _, _, _, _, _, _, _ => None
    end.

(** The sort of V8 (array-sort.tq) on an array shorter than 64, where it
    is one [CountAndMakeRun] followed by one [BinaryInsertionSort];
    [order x y] is the comparator with [NaN] read as [+0]. *)
Section V8.
Context {A : Type} (order : A -> A -> Z).

(** The loop of [CountAndMakeRun]: the run goes on while the next value
    is strictly before the previous one (descending run) or not before
    it (ascending run); the result is the rest of the run and what
    follows it. *)
Fixpoint run_loop (isDescending : bool) (previousElement : A)
  (l : list A) : list A * list A :=
  match l with
  | [] => ([], [])
  | currentElement :: l' =>
      let o := order currentElement previousElement in
      if (if isDescending then 0 <=? o else o <? 0) then ([], l)
      else
        let '(run, rest) := run_loop isDescending currentElement l' in
        (currentElement :: run, rest)
  end.

(** The run at the start of the array, reversed when it is descending,
    and the rest of the array. *)
Definition CountAndMakeRun (l : list A) : list A * list A :=
  match l with
  | [] => ([], [])
  | [x] => ([x], [])
  | elementHigh :: elementLow :: l' =>
      let isDescending := order elementLow elementHigh <? 0 in
      let '(run, rest) := run_loop isDescending elementLow l' in
      let whole := elementHigh :: elementLow :: run in
      (if isDescending then rev whole else whole, rest)
  end.

(** The binary search of [BinaryInsertionSort]: where [pivot] belongs
    in [sorted], between [left] and [right]. *)
Fixpoint binary_search (fuel : nat) (pivot : A) (sorted : list A)
  (left right : nat) : nat :=
  match fuel with
  | O => left
  | S fuel' =>
      if (left <? right)%nat then
        let mid := (left + (right - left) / 2)%nat in
        match nth_error sorted mid with
        | Some m =>
            if order pivot m <? 0
            then binary_search fuel' pivot sorted left mid
            else binary_search fuel' pivot sorted (S mid) right
        | None => left
        end
      else left
  end.

Definition insert_pivot (sorted : list A) (pivot : A) : list A :=
  let left := binary_search (S (List.length sorted)) pivot sorted 0
                            (List.length sorted) in
  (firstn left sorted ++ pivot :: skipn left sorted)%list.

(** The values after the run are inserted one after the other. *)
Definition BinaryInsertionSort (run rest : list A) : list A :=
  fold_left insert_pivot rest run.

Definition v8_sort (l : list A) : list A :=
  let '(run, rest) := CountAndMakeRun l in BinaryInsertionSort run rest.

End V8.

(** [v8_sort] rearranges the array. *)
Definition v8_sort_permutes (A : Type) (order : A -> A -> Z)
  (l : list A) : Permutation l (v8_sort order l).
Proof.
  assert (Hloop : forall d p m,
             m = (fst (run_loop order d p m)
                  ++ snd (run_loop order d p m))%list).
  { intros d p m; revert p; induction m as [|x m IH]; intros p; simpl;
      [reflexivity|].
    destruct (if d then 0 <=? order x p else order x p <? 0);
      [reflexivity|].
    specialize (IH x). destruct (run_loop order d x m) as [run rest].
    simpl in *. now rewrite <- IH. }
  assert (Hins : forall rest run,
             Permutation (run ++ rest)
                         (BinaryInsertionSort order run rest)).
  { unfold BinaryInsertionSort.
    induction rest as [|x rest IH]; intros run; simpl.
    - now rewrite app_nil_r.
    - rewrite <- IH.
      transitivity ((x :: run) ++ rest)%list;
        [symmetry; apply Permutation_middle|].
      apply Permutation_app_tail. unfold insert_pivot.
      set (i := binary_search order _ x run 0 _).
      rewrite <- (firstn_skipn i run) at 1.
      apply Permutation_middle. }
  unfold v8_sort, CountAndMakeRun.
  destruct l as [|x0 [|x1 l]]; [reflexivity | reflexivity |].
  specialize (Hloop (order x1 x0 <? 0) x1 l).
  destruct (run_loop order (order x1 x0 <? 0) x1 l) as [run rest].
  simpl in Hloop. rewrite <- Hins. subst l.
  change (x0 :: x1 :: run ++ rest)%list
    with ((x0 :: x1 :: run) ++ rest)%list.
  apply Permutation_app_tail.
  destruct (order x1 x0 <? 0); [apply Permutation_rev | reflexivity].
Qed.

(** A host that compares strings by code units, parses ISO dates and
    sorts as V8 does. *)
Definition example_host : Host :=
  {| localeCompare := fun s t =>
       match String.compare s t with Lt => -1 | Eq => 0 | Gt => 1 end;
     Date_getTime := iso_getTime;
     engine_sort := fun A order l => v8_sort order l;
     engine_sort_permutes := v8_sort_permutes |}.

Import Library.

Definition song (i : Z) (t a : string) (g s : option string)
  (added : string) (p l : Z) (d : option Z) : LibraryItem :=
  {| id := i; title := t; artist_name := a; album := None;
     release_year := None; duration_seconds := d; yt_id := None;
     spotify_id := None; genre := g; contributors := None;
     sources := s; last_added := added; play_count := p;
     like_count := l; dislike_count := 0 |}.

Definition song1 : LibraryItem :=
  song 1 "Blue Train" "Coltrane" (Some "Pop,Rock")
       (Some "spotify_import") "2024-03-01T10:00:00.000Z" 3 1 (Some 125).

Definition song2 : LibraryItem :=
  song 2 "Alabama" "Coltrane" (Some "Jazz")
       (Some "request") "2024-03-02T10:00:00.000Z" 7 0 None.

Definition library2 : list LibraryItem := [song1; song2].

(** Four items of which the third has no date: an older one, two added
    at the same moment, and between these the undated one. *)
Definition older : LibraryItem :=
  song 11 "Older" "A" None None "2024-03-01T10:00:00.000Z" 0 0 None.

Definition newer : LibraryItem :=
  song 12 "Newer" "A" None None "2024-03-02T10:00:00.000Z" 0 0 None.

Definition undated : LibraryItem :=
  song 13 "Undated" "A" None None "" 0 0 None.

Definition newer' : LibraryItem :=
  song 14 "Newer too" "A" None None "2024-03-02T10:00:00.000Z" 0 0 None.

Definition library_undated : list LibraryItem :=
  [older; newer; undated; newer'].

(** The undated item and the last one. *)
Definition last_two (x : LibraryItem) : bool :=
  (id x =? 13) || (id x =? 14).

(** One item tagged with 22 genres. *)
Definition song22 : LibraryItem :=
  song 3 "Medley" "Various"
       (Some ("g01,g02,g03,g04,g05,g06,g07,g08,g09,g10,g11,"
              ++ " g12,g13,g14,g15,g16,g17,g18,g19,g20,g21,g22"))
       (Some "import") "2024-03-03T10:00:00.000Z" 0 0 (Some 0).

(** A state with every filter set and the list ordered by plays. *)
Definition busyState : FilterState :=
  {| searchQuery := "blue"; genreFilter := "Rock";
     sourceFilter := "spotify_import"; sortBy := Plays |}.

Import Services.

Definition quiet (n : nat) (st : PageState) : PageState := st.

(** Every request is answered with status 500 and no body. *)
Definition world_500 : World :=
  {| net := fun _ _ _ =>
       Resolved {| resp_status := 500;
                   resp_body := JsonReject "SyntaxError" |};
     others := quiet |}.

(** Every request fails in the network. *)
Definition world_down : World :=
  {| net := fun _ _ _ => NetworkError "TypeError: Failed to fetch";
     others := quiet |}.

Definition bot_online : Service :=
  {| id := "bot"; name := "Discord Bot"; description := "";
     status := online; uptime := Some "2h"; restartable := true |}.

(** Every request is answered with status 200 and one online bot. *)
Definition world_200 : World :=
  {| net := fun _ _ _ =>
       Resolved {| resp_status := 200;
                   resp_body := JsonValue (Some [bot_online]) None |};
     others := quiet |}.

(** A page showing the fallback list while the bot restarts. *)
Definition page_restarting : PageState :=
  {| services := fallbackServices; restartingServices := ["bot"];
     loading := false; error := None |}.

Definition page_idle : PageState :=
  {| services := fallbackServices; restartingServices := [];
     loading := false; error := None |}.

End Examples.

(** ** The rest of the Library page: LibraryCard, the option labels, the
       empty state and the server page that loads the library *)

Module LibraryCard.
Import JS Library.

Record Badge : Type := {
  color : string;
  label : string
}.

(** The own properties of the object literal [badges]. *)
Definition badges : list (string * Badge) :=
  [ ("spotify_import",
     {| color := "bg-green-500/20 text-green-400"; label := "Spotify" |});
    ("youtube_import",
     {| color := "bg-red-500/20 text-red-400"; label := "YouTube" |});
    ("user_request",
     {| color := "bg-blue-500/20 text-blue-400"; label := "Request" |});
    ("request",
     {| color := "bg-blue-500/20 text-blue-400"; label := "Request" |});
    ("reaction",
     {| color := "bg-pink-500/20 text-pink-400"; label := "Liked" |});
    ("like",
     {| color := "bg-pink-500/20 text-pink-400"; label := "Liked" |});
    ("import",
     {| color := "bg-green-500/20 text-green-400"; label := "Import" |}) ].

(** The properties an object literal inherits from [Object.prototype];
    the value of each is truthy and is no badge. *)
Definition Object_prototype_keys : list string :=
  [ "constructor"; "__defineGetter__"; "__defineSetter__";
    "hasOwnProperty"; "__lookupGetter__"; "__lookupSetter__";
    "isPrototypeOf"; "propertyIsEnumerable"; "toString"; "valueOf";
    "__proto__"; "toLocaleString" ].

Fixpoint own_property (key : string) (table : list (string * Badge))
  : option Badge :=
  match table with
  | [] => None
  | (k, b) :: table' =>
      if String.eqb key k then Some b else own_property key table'
  end.

(** What [badges[source] || { color, label: source }] evaluates to. *)
Inductive BadgeResult : Type :=
| IsBadge (b : Badge)
| Inherited (key : string).

Definition getSourceBadge (source : string) : BadgeResult :=
  match own_property source badges with
  | Some b => IsBadge b
  | None =>
      if Set_has String.eqb source Object_prototype_keys
      then Inherited source
      else IsBadge {| color := "bg-zinc-500/20 text-zinc-400";
                      label := source |}
  end.

(** [item.genre?.split(',').slice(0, 2) || []]. *)
Definition card_genres (item : LibraryItem) : list string :=
  match genre item with
  | Some raw => firstn 2 (split "," raw)
  | None => []
  end.

(** The chips of the genre column, and whether the dash stands in for
    them ([genres.length === 0]). *)
Definition genreChips (item : LibraryItem) : list string :=
  map trim (card_genres item).

Definition genreDash (item : LibraryItem) : bool :=
  Nat.eqb (List.length (card_genres item)) 0.

(** [item.sources?.split(',') || []]. *)
Definition card_sources (item : LibraryItem) : list string :=
  match sources item with
  | Some raw => split "," raw
  | None => []
  end.

(** The badges of the source column. *)
Definition sourceBadges (item : LibraryItem) : list BadgeResult :=
  map (fun source => getSourceBadge (trim source))
      (firstn 2 (card_sources item)).

(** [item.contributors?.split(',').length || 0]. *)
Definition contributorCount (item : LibraryItem) : nat :=
  match contributors item with
  | Some raw => List.length (split "," raw)
  | None => O
  end.

(** [String.prototype.replace] with a pattern of one unit and a
    replacement without [$]: the first occurrence is replaced. *)
Fixpoint replace (pattern : ascii) (replacement s : string) : string :=
  match s with
  | EmptyString => EmptyString
  | String c s' =>
      if Ascii.eqb c pattern then replacement ++ s'
      else String c (replace pattern replacement s')
  end.

(** The text of a source option: [source.replace('_', ' ')]. *)
Definition sourceOptionLabel (source : string) : string :=
  replace "_" " " source.

(** What stands below the table header. *)
Inductive Grid : Type :=
| EmptyState (headline hint : string)
| Rows (l : list LibraryItem).

Section WithHost.
Context {H : Host}.

Definition libraryGrid (initialLibrary : list LibraryItem)
  (st : FilterState) : Grid :=
  if Nat.eqb (List.length (filteredLibrary initialLibrary st)) 0 then
    EmptyState
      (if hasActiveFilters st then "No songs match your filters"
       else "Library is empty")
      (if hasActiveFilters st then "Try adjusting your filters"
       else "Songs will appear here after they're added to libraries")
  else Rows (filteredLibrary initialLibrary st).

(** [LibraryPage] of page.tsx: [getLibrary(500)] resolves to the rows or
    rejects; a rejection is logged and leaves [library] empty.  The
    result is the library handed to [LibraryPageClient] and the lines
    written to the console. *)
Definition LibraryPage (getLibrary : Z -> string + list LibraryItem)
  : list LibraryItem * list string :=
  match getLibrary 500 with
  | inr rows => (rows, [])
  | inl err => ([], ["Failed to fetch library: " ++ err])
  end.

End WithHost.

End LibraryCard.

(** ** The rest of the Services page: the overview counts, the banner and
       the refresh button *)

Module ServicesView.
Import JS Services.

Definition Status_eqb (a b : Status) : bool :=
  match a, b with
  | online, online | offline, offline
  | restarting, restarting | starting, starting => true
  | _, _ => false
  end.

(** [services.filter(s => s.status === 'online').length] and its
    sibling. *)
Definition onlineCount (st : PageState) : nat :=
  List.length (filter (fun s => Status_eqb (status s) online)
                      (services st)).

Definition offlineCount (st : PageState) : nat :=
  List.length (filter (fun s => Status_eqb (status s) offline)
                      (services st)).

Definition totalCount (st : PageState) : nat :=
  List.length (services st).

(** [statusText[actualStatus]]. *)
Definition statusText (s : Status) : string :=
  match s with
  | online => "Online"
  | offline => "Offline"
  | restarting => "Restarting..."
  | starting => "Starting..."
  end.

(** The text of the button of a card. *)
Definition button_label (p : ServiceCardProps) : string :=
  if isRestarting p then "Restarting..." else "Restart".

(** [{error && <banner>{error}</banner>}]. *)
Definition errorBanner (st : PageState) : option string :=
  match error st with
  | Some e => if truthy e then Some e else None
  | None => None
  end.

(** The Refresh button: [disabled={loading}], [onClick={fetchServices}]. *)
Definition refresh_click (st : PageState) : Task unit :=
  if loading st then Ret tt else fetchServices.

End ServicesView.

(** ** Vocabulary of the further properties *)

Module MoreProps.
Import JS Props Library Services.

(** What the page promises of a row, in words of the fields alone: with
    a query, the query in lower case is a piece of the title, of the
    artist name or of the album, each in lower case; with a genre other
    than [all], the item has a genre field of which the selector is a
    piece, both in lower case; and the same for the source selector and
    the sources field. *)
Definition Meets (st : FilterState) (item : LibraryItem) : Prop :=
  (searchQuery st <> "" ->
     Substring (toLowerCase (searchQuery st)) (toLowerCase (title item))
     \/ Substring (toLowerCase (searchQuery st))
                  (toLowerCase (artist_name item))
     \/ exists a, album item = Some a
                  /\ Substring (toLowerCase (searchQuery st))
                               (toLowerCase a))
  /\ (genreFilter st <> "all" ->
        exists raw, genre item = Some raw
                    /\ Substring (toLowerCase (genreFilter st))
                                 (toLowerCase raw))
  /\ (sourceFilter st <> "all" ->
        exists raw, sources item = Some raw
                    /\ Substring (toLowerCase (sourceFilter st))
                                 (toLowerCase raw)).

(** The conjunction of the criteria in force in [st]. *)
Definition passes (st : FilterState) (item : LibraryItem) : bool :=
  (negb (truthy (searchQuery st))
   || matchesSearch (toLowerCase (searchQuery st)) item)
  && (String.eqb (genreFilter st) "all"
      || matchesGenre (genreFilter st) item)
  && (String.eqb (sourceFilter st) "all"
      || matchesSource (sourceFilter st) item).

(** The number of units of [s] equal to [c]. *)
Fixpoint count_unit (c : ascii) (s : string) : nat :=
  match s with
  | EmptyString => O
  | String d s' => (if Ascii.eqb d c then 1 else 0) + count_unit c s'
  end.

(** The other tasks leave the restarting set alone. *)
Definition keeps_restarting (w : World) : Prop :=
  forall n st,
    restartingServices (others w n st) = restartingServices st.

(** The other tasks do nothing at all. *)
Definition alone (w : World) : Prop :=
  forall n st, others w n st = st.

(** The state setters a trace calls. *)
Definition actions (tr : list Event) : list Action :=
  flat_map (fun e => match e with EvSet a => [a] | _ => [] end) tr.

(** The requests a trace sends. *)
Definition requests (tr : list Event) : list (string * string) :=
  flat_map (fun e => match e with
                     | EvFetch m u => [(m, u)]
                     | _ => []
                     end) tr.

End MoreProps.

Module MoreExamples.
Import JS Library Examples.

(** An item with three contributors, three genres and three sources. *)
Definition song3 : LibraryItem :=
  {| id := 4; title := "Trio"; artist_name := "Three";
     album := Some "Album"; release_year := Some 1999;
     duration_seconds := Some 61; yt_id := Some "abc";
     spotify_id := None; genre := Some "Pop, Rock ,Jazz";
     contributors := Some "ann,bob,cyd";
     sources := Some "user_request,like,constructor";
     last_added := "2024-03-04T10:00:00.000Z";
     play_count := 7; like_count := 2; dislike_count := 0 |}.

Definition library3 : list LibraryItem := [song1; song2; song3].

Definition rockState : FilterState :=
  {| searchQuery := ""; genreFilter := "Rock"; sourceFilter := "all";
     sortBy := Plays |}.

Import Services.

(** A restart that is accepted, followed by a poll that fails. *)
Definition world_restart_then_down : World :=
  {| net := fun _ m _ =>
       if String.eqb m "POST"
       then Resolved {| resp_status := 202;
                        resp_body := JsonValue None None |}
       else NetworkError "TypeError: Failed to fetch";
     others := quiet |}.

(** Status 200 with a body that is no JSON. *)
Definition world_200_garbage : World :=
  {| net := fun _ _ _ =>
       Resolved {| resp_status := 200;
                   resp_body := JsonReject "SyntaxError" |};
     others := quiet |}.

(** Status 200 with the body [{}]. *)
Definition world_200_empty : World :=
  {| net := fun _ _ _ =>
       Resolved {| resp_status := 200;
                   resp_body := JsonValue None None |};
     others := quiet |}.

End MoreExamples.

(** * Properties *)

(** ** Strings *)

Module StringFacts.
Import JS Props.

Lemma startsWith_iff (s q : string) :
  startsWith s q = true <-> exists b : string, s = q ++ b.
Proof.
  revert s; induction q as [|c q IH]; intros s; simpl.
  - split; [intros _; now exists s | now destruct s].
  - destruct s as [|d s].
    + split; [discriminate | intros [b Hb]; discriminate].
    + rewrite andb_true_iff, Ascii.eqb_eq, IH. split.
      * intros [-> [b ->]]. now exists b.
      * intros [b Hb]. injection Hb as -> ->. split; [reflexivity|].
        now exists b.
Qed.

Lemma includes_iff (s q : string) :
  includes s q = true <-> Substring q s.
Proof.
  unfold Substring. induction s as [|d s IH].
  - simpl. rewrite orb_false_r, startsWith_iff. split.
    + intros [b Hb]. now exists "", b.
    + intros [[|x a] [b Hb]]; [now exists b | discriminate].
  - cbn [includes]. rewrite orb_true_iff, IH, startsWith_iff. split.
    + intros [[b Hb] | [a [b Hb]]].
      * now exists "", b.
      * exists (String d a), b. simpl. now rewrite Hb.
    + intros [[|x a] [b Hb]].
      * left. now exists b.
      * right. simpl in Hb. injection Hb as _ Hb. now exists a, b.
Qed.

Lemma truthy_iff (s : string) : truthy s = true <-> s <> "".
Proof. destruct s; simpl; split; congruence. Qed.

Lemma or_num_0 (n : Z) : or_num n 0 = n.
Proof. unfold or_num. destruct (Z.eqb_spec n 0); congruence. Qed.

Lemma or_str_empty (s : string) : or_str s "" = s.
Proof. now destruct s. Qed.

End StringFacts.

(** ** [Set] and [Array.prototype.sort] *)

Module SetFacts.
Import JS.

Section WithEq.
Context {A : Type} (eqb : A -> A -> bool).
Hypothesis eqb_eq : forall x y, eqb x y = true <-> x = y.

Lemma Set_has_iff (x : A) (s : list A) : Set_has eqb x s = true <-> In x s.
Proof.
  unfold Set_has. rewrite existsb_exists. split.
  - intros [y [Hy E]]. apply eqb_eq in E. now subst.
  - intros Hx. exists x. split; [assumption | now apply eqb_eq].
Qed.

Lemma Set_add_NoDup (x : A) (s : list A) :
  NoDup s -> NoDup (Set_add eqb x s).
Proof.
  intros Hs. unfold Set_add. destruct (Set_has eqb x s) eqn:E; [exact Hs|].
  assert (Hx : ~ In x s).
  { intros Hin. apply Set_has_iff in Hin. congruence. }
  clear E. induction Hs as [|y s Hy Hs IH]; simpl.
  - constructor; [intros [] | constructor].
  - constructor.
    + rewrite in_app_iff. intros [Hin | [-> | []]]; [tauto|].
      apply Hx. now left.
    + apply IH. intros Hin. apply Hx. now right.
Qed.

Lemma Set_add_In (x y : A) (s : list A) :
  In y (Set_add eqb x s) <-> y = x \/ In y s.
Proof.
  unfold Set_add. destruct (Set_has eqb x s) eqn:E.
  - apply Set_has_iff in E. split; [now right|].
    intros [-> | Hy]; assumption.
  - rewrite in_app_iff. simpl. intuition congruence.
Qed.

Lemma fold_Set_add_In {B : Type} (f : B -> A) (l : list B)
  (s : list A) (y : A) :
  In y (fold_left (fun acc b => Set_add eqb (f b) acc) l s) <->
  In y s \/ exists b, In b l /\ y = f b.
Proof.
  revert s; induction l as [|b l IH]; intros s; simpl.
  - split; [now left | intros [Hy | [b [[] _]]]; exact Hy].
  - rewrite IH, Set_add_In. split.
    + intros [[-> | Hy] | [b' [Hb' ->]]].
      * right. exists b. now split; [left|].
      * now left.
      * right. exists b'. now split; [right|].
    + intros [Hy | [b' [[<- | Hb'] ->]]].
      * left. now right.
      * left. now left.
      * right. now exists b'.
Qed.

Lemma fold_Set_add_NoDup {B : Type} (f : B -> A) (l : list B)
  (s : list A) :
  NoDup s -> NoDup (fold_left (fun acc b => Set_add eqb (f b) acc) l s).
Proof.
  revert s; induction l as [|b l IH]; intros s Hs; simpl; [exact Hs|].
  now apply IH, Set_add_NoDup.
Qed.

Lemma Set_delete_has (x : A) (s : list A) :
  Set_has eqb x (Set_delete eqb x s) = false.
Proof.
  destruct (Set_has eqb x (Set_delete eqb x s)) eqn:E; [|reflexivity].
  apply Set_has_iff in E. unfold Set_delete in E.
  apply filter_In in E. destruct E as [_ E].
  assert (eqb x x = true) by now apply eqb_eq.
  rewrite H in E. discriminate.
Qed.

End WithEq.

End SetFacts.

Module SortFacts.
Import JS Props.

Section WithComparator.
Context {A : Type} (comparefn : A -> A -> JSNumber).

Local Abbreviation cmp := (SortCompare comparefn).
Local Abbreviation insert := (sort_insert comparefn).
Local Abbreviation ssort := (stable_sort comparefn).
Local Abbreviation ordered := (ordered comparefn).
Local Abbreviation same := (same_rank comparefn).

Lemma insert_perm (x : A) (l : list A) : Permutation (x :: l) (insert x l).
Proof.
  induction l as [|y l IH]; simpl; [reflexivity|].
  destruct (0 <? cmp x y); [|reflexivity].
  rewrite perm_swap. now apply perm_skip.
Qed.

Lemma stable_sort_perm (l : list A) : Permutation l (ssort l).
Proof.
  induction l as [|x l IH]; simpl; [constructor|].
  rewrite <- insert_perm. now apply perm_skip.
Qed.

Lemma stable_sort_In (x : A) (l : list A) : In x (ssort l) <-> In x l.
Proof.
  split; apply Permutation_in;
    [symmetry |]; apply stable_sort_perm.
Qed.

(** A list in order is left as it is. *)
Lemma stable_sort_sorted_id (l : list A) : Sorted ordered l -> ssort l = l.
Proof.
  induction 1 as [|x l Hl IH Hx]; simpl; [reflexivity|].
  rewrite IH. destruct Hx as [|y l' Hxy]; simpl; [reflexivity|].
  unfold Props.ordered in Hxy.
  destruct (Z.ltb_spec 0 (cmp x y)); [lia | reflexivity].
Qed.

(** Stability, for a predicate [keep] that selects values of which none
    is strictly after another: the selected values come out in the
    order they went in. *)
Lemma insert_stable (keep : A -> bool) (x : A) (l : list A) :
  (forall y, keep x = true -> keep y = true -> In y l -> cmp x y <= 0) ->
  filter keep (insert x l) = filter keep (x :: l).
Proof.
  induction l as [|y l IH]; intros Hk; simpl; [reflexivity|].
  destruct (Z.ltb_spec 0 (cmp x y)) as [Hlt | Hle]; [|reflexivity].
  simpl. rewrite IH by (intros z Hx Hz Hin; apply Hk; simpl; auto).
  simpl. destruct (keep x) eqn:Ex, (keep y) eqn:Ey; try reflexivity.
  specialize (Hk y eq_refl Ey (or_introl eq_refl)). lia.
Qed.

Lemma stable_sort_stable (keep : A -> bool) (l : list A) :
  (forall x y, In x l -> In y l -> keep x = true -> keep y = true ->
               cmp x y <= 0) ->
  filter keep (ssort l) = filter keep l.
Proof.
  induction l as [|x l IH]; intros Hk; simpl; [reflexivity|].
  assert (Hl : filter keep (ssort l) = filter keep l).
  { apply IH. intros y z Hy Hz. apply Hk; now right. }
  assert (Hx : filter keep (insert x (ssort l))
               = filter keep (x :: ssort l)).
  { apply insert_stable. intros y Kx Ky Hin.
    apply (proj1 (stable_sort_In y l)) in Hin.
    apply Hk; [now left | now right | exact Kx | exact Ky]. }
  rewrite Hx. simpl. now rewrite Hl.
Qed.

(** The check and the property it decides. *)
Lemma consistent_onb_iff (l : list A) :
  consistent_onb comparefn l = true <-> consistent_on comparefn l.
Proof.
  unfold consistent_onb, consistent_on. rewrite forallb_forall.
  assert (Hat : forall x y z,
             consistent_at comparefn x y z = true <->
             comparefn x y <> None
             /\ cmp x x = 0
             /\ (0 < cmp x y -> cmp y x < 0)
             /\ (cmp x y < 0 -> 0 < cmp y x)
             /\ (ordered x y -> ordered y z -> ordered x z)).
  { intros x y z. unfold consistent_at, Props.ordered.
    rewrite !andb_true_iff, Z.eqb_eq.
    assert (Hn : is_number (comparefn x y) = true
                 <-> comparefn x y <> None)
      by (destruct (comparefn x y); simpl; split; congruence).
    rewrite Hn.
    destruct (Z.ltb_spec 0 (cmp x y)), (Z.ltb_spec (cmp y x) 0),
      (Z.ltb_spec (cmp x y) 0), (Z.ltb_spec 0 (cmp y x)),
      (Z.leb_spec (cmp x y) 0), (Z.leb_spec (cmp y z) 0),
      (Z.leb_spec (cmp x z) 0); simpl;
      split; intros; repeat split; try tauto; try lia;
      try discriminate; intuition (try lia; try discriminate). }
  split.
  - intros Hall x y z Hx Hy Hz. apply Hat.
    specialize (Hall x Hx). rewrite forallb_forall in Hall.
    specialize (Hall y Hy). rewrite forallb_forall in Hall.
    exact (Hall z Hz).
  - intros Hall x Hx. apply forallb_forall. intros y Hy.
    apply forallb_forall. intros z Hz. apply Hat. now apply Hall.
Qed.

Lemma consistent_on_incl (l l' : list A) :
  incl l' l -> consistent_on comparefn l -> consistent_on comparefn l'.
Proof. intros Hi Hc x y z Hx Hy Hz. apply Hc; now apply Hi. Qed.

(** *** On a comparator consistent on [l0] *)

Section ConsistentOn.
Variable l0 : list A.
Hypothesis Hc : consistent_on comparefn l0.

Lemma consistent_refl (x : A) : In x l0 -> cmp x x = 0.
Proof. intros Hx. now destruct (Hc x x x Hx Hx Hx) as [_ [E _]]. Qed.

Lemma consistent_flip (x y : A) :
  In x l0 -> In y l0 -> 0 < cmp x y -> cmp y x < 0.
Proof. intros Hx Hy. now destruct (Hc x y y Hx Hy Hy) as [_ [_ [E _]]]. Qed.

Lemma consistent_flip' (x y : A) :
  In x l0 -> In y l0 -> cmp x y < 0 -> 0 < cmp y x.
Proof.
  intros Hx Hy. now destruct (Hc x y y Hx Hy Hy) as [_ [_ [_ [E _]]]].
Qed.

Lemma consistent_trans (x y z : A) :
  In x l0 -> In y l0 -> In z l0 ->
  cmp x y <= 0 -> cmp y z <= 0 -> cmp x z <= 0.
Proof.
  intros Hx Hy Hz. now destruct (Hc x y z Hx Hy Hz) as [_ [_ [_ [_ E]]]].
Qed.

Lemma insert_strongly_sorted (x : A) (l : list A) :
  incl (x :: l) l0 ->
  StronglySorted ordered l -> StronglySorted ordered (insert x l).
Proof.
  intros Hi Hs. induction Hs as [|y l Hl IH Hy]; simpl.
  - repeat constructor.
  - assert (Hx : In x l0) by (apply Hi; now left).
    assert (Hy0 : In y l0) by (apply Hi; right; now left).
    destruct (Z.ltb_spec 0 (cmp x y)) as [Hlt | Hle].
    + constructor.
      * apply IH. intros z [<- | Hz]; apply Hi; simpl; auto.
      * apply (Permutation_Forall (insert_perm x l)).
        constructor; [|exact Hy].
        apply consistent_flip in Hlt; trivial.
        unfold Props.ordered. lia.
    + constructor; [now constructor|].
      constructor; [exact Hle|].
      apply Forall_forall. intros z Hz.
      apply consistent_trans with y; trivial.
      * apply Hi. right. now right.
      * rewrite Forall_forall in Hy. now apply Hy.
Qed.

Lemma stable_sort_strongly_sorted (l : list A) :
  incl l l0 -> StronglySorted ordered (ssort l).
Proof.
  induction l as [|x l IH]; intros Hi; simpl; [constructor|].
  apply insert_strongly_sorted.
  - intros z [<- | Hz]; [apply Hi; now left|].
    apply (proj1 (stable_sort_In z l)) in Hz. apply Hi. now right.
  - apply IH. intros z Hz. apply Hi. now right.
Qed.

Lemma same_rank_ordered (a x y : A) :
  In a l0 -> In x l0 -> In y l0 ->
  same a x = true -> same a y = true -> cmp x y <= 0.
Proof.
  unfold same_rank. intros Ha Hx Hy Ex Ey.
  apply Z.eqb_eq in Ex, Ey.
  apply consistent_trans with a; trivial; [|lia].
  destruct (Z.ltb_spec 0 (cmp x a)) as [Hlt|Hle]; [|exact Hle].
  apply consistent_flip in Hlt; trivial. lia.
Qed.

Lemma stable_sort_classes (l : list A) (a : A) :
  incl l l0 -> In a l0 ->
  filter (same a) (ssort l) = filter (same a) l.
Proof.
  intros Hi Ha. apply stable_sort_stable.
  intros x y Hx Hy. apply same_rank_ordered; auto.
Qed.

Lemma same_rank_head (x y : A) (l1 l2 : list A) :
  In x l0 -> In y l0 ->
  StronglySorted ordered (y :: l2) ->
  filter (same x) (x :: l1) = filter (same x) (y :: l2) ->
  cmp y x <= 0.
Proof.
  intros Hx Hy H2 Hf.
  assert (Exx : same x x = true)
    by (unfold same_rank; now rewrite consistent_refl).
  cbn [filter] in Hf. rewrite Exx in Hf.
  destruct (same x y) eqn:Exy.
  - unfold same_rank in Exy. apply Z.eqb_eq in Exy.
    destruct (Z.ltb_spec 0 (cmp y x)) as [Hlt|Hle]; [|exact Hle].
    apply consistent_flip in Hlt; trivial. lia.
  - assert (Hin : In x (filter (same x) l2)) by (rewrite <- Hf; now left).
    apply filter_In in Hin. destruct Hin as [Hin _].
    apply StronglySorted_inv in H2. destruct H2 as [_ Hall].
    rewrite Forall_forall in Hall. exact (Hall x Hin).
Qed.

(** Two lists in order with the same classes of equal values are the
    same list. *)
Lemma stable_sorted_unique (l1 l2 : list A) :
  incl l1 l0 -> incl l2 l0 ->
  StronglySorted ordered l1 -> StronglySorted ordered l2 ->
  (forall a, In a l0 -> filter (same a) l1 = filter (same a) l2) ->
  l1 = l2.
Proof.
  revert l2. induction l1 as [|x l1 IH]; intros l2 Hi1 Hi2 H1 H2 Hf.
  - destruct l2 as [|y l2]; [reflexivity|].
    assert (Hy : In y l0) by (apply Hi2; now left).
    specialize (Hf y Hy). cbn [filter] in Hf.
    unfold same_rank at 1 in Hf. rewrite (consistent_refl y Hy) in Hf.
    discriminate.
  - assert (Hx : In x l0) by (apply Hi1; now left).
    assert (Exx : same x x = true)
      by (unfold same_rank; now rewrite consistent_refl).
    destruct l2 as [|y l2].
    + specialize (Hf x Hx). cbn [filter] in Hf. rewrite Exx in Hf.
      discriminate.
    + assert (Hy : In y l0) by (apply Hi2; now left).
      assert (Hyx : cmp y x <= 0).
      { apply (same_rank_head x y l1 l2 Hx Hy H2), Hf, Hx. }
      assert (Hxy : cmp x y <= 0).
      { apply (same_rank_head y x l2 l1 Hy Hx H1). symmetry.
        apply Hf, Hy. }
      assert (E0 : cmp x y = 0).
      { destruct (Z.ltb_spec (cmp x y) 0) as [Hlt|Hge]; [|lia].
        apply consistent_flip' in Hlt; trivial. lia. }
      assert (Exy : x = y).
      { assert (Ey : same x y = true)
          by (unfold same_rank; now rewrite E0).
        specialize (Hf x Hx). cbn [filter] in Hf.
        rewrite Exx, Ey in Hf. now injection Hf. }
      subst y. f_equal.
      apply StronglySorted_inv in H1, H2.
      apply IH; try tauto.
      * intros z Hz. apply Hi1. now right.
      * intros z Hz. apply Hi2. now right.
      * intros a Ha. specialize (Hf a Ha). cbn [filter] in Hf.
        destruct (same a x); [now injection Hf | exact Hf].
Qed.

End ConsistentOn.

(** Under a comparator consistent on [l], [stable_sort] is what
    ECMAScript asks for, and nothing else is. *)
Lemma stable_sort_conforms (l : list A) :
  consistent_on comparefn l -> stable_sort_of comparefn l (ssort l).
Proof.
  intros Hc. split; [apply stable_sort_perm|]. split.
  - apply (stable_sort_strongly_sorted l Hc), incl_refl.
  - intros a Ha. apply (stable_sort_classes l Hc); [apply incl_refl|].
    exact Ha.
Qed.

Lemma stable_sort_only (l out : list A) :
  consistent_on comparefn l ->
  stable_sort_of comparefn l out -> out = ssort l.
Proof.
  intros Hc [Hp [Hs Hf]].
  destruct (stable_sort_conforms l Hc) as [Hp' [Hs' Hf']].
  apply (stable_sorted_unique l Hc); trivial.
  - intros z Hz. apply (Permutation_in z (Permutation_sym Hp) Hz).
  - intros z Hz. apply (Permutation_in z (Permutation_sym Hp') Hz).
  - intros a Ha. now rewrite Hf, Hf'.
Qed.

(** *** [Array_sort] *)

Context {H : Host}.
Local Abbreviation sort := (Array_sort comparefn).

Lemma sort_consistent (l : list A) :
  consistent_on comparefn l -> sort l = ssort l.
Proof.
  intros Hc. unfold Array_sort.
  apply consistent_onb_iff in Hc. now rewrite Hc.
Qed.

Lemma sort_perm (l : list A) : Permutation l (sort l).
Proof.
  unfold Array_sort. destruct (consistent_onb comparefn l).
  - apply stable_sort_perm.
  - apply engine_sort_permutes.
Qed.

Lemma sort_In (x : A) (l : list A) : In x (sort l) <-> In x l.
Proof.
  split; apply Permutation_in;
    [symmetry |]; apply sort_perm.
Qed.

Lemma sort_length (l : list A) : List.length (sort l) = List.length l.
Proof. symmetry. apply Permutation_length, sort_perm. Qed.

Lemma sort_singleton (x : A) : sort [x] = [x].
Proof.
  apply Permutation_length_1_inv, sort_perm.
Qed.

Lemma consistent_on_sort (l : list A) :
  consistent_on comparefn l -> consistent_on comparefn (sort l).
Proof.
  apply consistent_on_incl. intros x Hx.
  exact (proj1 (sort_In x l) Hx).
Qed.

(** Under a comparator consistent on [l]: the result is in order, *)
Lemma sort_strongly_sorted (l : list A) :
  consistent_on comparefn l -> StronglySorted ordered (sort l).
Proof.
  intros Hc. rewrite sort_consistent by exact Hc.
  apply (stable_sort_strongly_sorted l Hc), incl_refl.
Qed.

(** a list in order is left as it is, *)
Lemma sort_sorted_id (l : list A) :
  consistent_on comparefn l -> Sorted ordered l -> sort l = l.
Proof.
  intros Hc Hs. rewrite sort_consistent by exact Hc.
  now apply stable_sort_sorted_id.
Qed.

(** sorting twice is sorting once, *)
Lemma sort_idempotent (l : list A) :
  consistent_on comparefn l -> sort (sort l) = sort l.
Proof.
  intros Hc. apply sort_sorted_id; [now apply consistent_on_sort|].
  apply StronglySorted_Sorted, sort_strongly_sorted, Hc.
Qed.

(** and values that compare equal stay in the order they had. *)
Lemma sort_stable (keep : A -> bool) (l : list A) :
  consistent_on comparefn l ->
  (forall x y, In x l -> In y l -> keep x = true -> keep y = true ->
               cmp x y <= 0) ->
  filter keep (sort l) = filter keep l.
Proof.
  intros Hc Hk. rewrite sort_consistent by exact Hc.
  now apply stable_sort_stable.
Qed.

(** The result is what every conforming engine returns. *)
Lemma sort_conforms (l out : list A) :
  consistent_on comparefn l ->
  stable_sort_of comparefn l (sort l)
  /\ (stable_sort_of comparefn l out -> out = sort l).
Proof.
  intros Hc. rewrite sort_consistent by exact Hc. split.
  - now apply stable_sort_conforms.
  - now apply stable_sort_only.
Qed.

End WithComparator.

End SortFacts.

(** ** The Library page *)

Module LibraryFacts.
Import JS Props Library StringFacts SetFacts SortFacts.

Lemma includesLower_iff (field : option string) (needle : string) :
  includesLower field needle = true <->
  exists raw, field = Some raw /\ Substring needle (toLowerCase raw).
Proof.
  destruct field as [raw|]; simpl.
  - rewrite includes_iff. split.
    + intros Hs. now exists raw.
    + intros [raw' [E Hs]]. now injection E as ->.
  - split; [discriminate | intros [raw [E _]]; discriminate].
Qed.

Lemma eqb_all_iff (s : string) : negb (String.eqb s "all") = true <-> s <> "all".
Proof. rewrite negb_true_iff. apply String.eqb_neq. Qed.

Lemma fold_left_sum {A : Type} (f : A -> Z) (l : list A) (a : Z) :
  fold_left (fun sum i => sum + f i) l a = a + sumZ f l.
Proof.
  revert a; induction l as [|x l IH]; intros a; simpl; [lia|].
  rewrite IH. lia.
Qed.

Section WithHost.
Context {H : Host}.

(** Membership in [filteredLibrary]: an item of the library that every
    criterion in force accepts. *)
Lemma filteredLibrary_In (lib : list LibraryItem) (st : FilterState)
  (item : LibraryItem) :
  In item (filteredLibrary lib st) <->
  In item lib
  /\ (searchQuery st = ""
      \/ matchesSearch (toLowerCase (searchQuery st)) item = true)
  /\ (genreFilter st = "all" \/ matchesGenre (genreFilter st) item = true)
  /\ (sourceFilter st = "all"
      \/ matchesSource (sourceFilter st) item = true).
Proof.
  unfold filteredLibrary. rewrite sort_In.
  destruct (String.eqb_spec (sourceFilter st) "all") as [Es|Es];
  destruct (String.eqb_spec (genreFilter st) "all") as [Eg|Eg];
  destruct (searchQuery st) as [|c q] eqn:Eq; cbn [truthy negb];
  repeat rewrite filter_In; intuition congruence.
Qed.

(** When the comparator of a key is consistent. *)
Lemma compareItems_consistent_on (k : SortKey) (l : list LibraryItem) :
  key_consistent H k l -> consistent_on (compareItems k) l.
Proof.
  intros Hk x y z Hx Hy Hz. unfold ordered, SortCompare.
  destruct k; simpl in *.
  - assert (Ex := Hk x Hx). assert (Ey := Hk y Hy).
    assert (Ez := Hk z Hz).
    destruct (Date_getTime (last_added x)) as [tx|]; [|congruence].
    destruct (Date_getTime (last_added y)) as [ty|]; [|congruence].
    destruct (Date_getTime (last_added z)) as [tz|]; [|congruence].
    simpl. repeat split; try discriminate; lia.
  - rewrite !or_str_empty.
    destruct (Hk (title x) (title y) (title z)) as [E1 [E2 [E3 E4]]].
    repeat split; try discriminate; assumption.
  - rewrite !or_str_empty.
    destruct (Hk (artist_name x) (artist_name y) (artist_name z))
      as [E1 [E2 [E3 E4]]].
    repeat split; try discriminate; assumption.
  - repeat split; try discriminate; lia.
  - repeat split; try discriminate; lia.
Qed.

(** A sublist inherits what makes the key consistent. *)
Lemma key_consistent_incl (k : SortKey) (l l' : list LibraryItem) :
  incl l' l -> key_consistent H k l -> key_consistent H k l'.
Proof.
  intros Hi. destruct k; simpl; trivial.
  intros Hk x Hx. apply Hk, Hi, Hx.
Qed.

End WithHost.

Lemma addTokens_NoDup (field : option string) (set : list string) :
  NoDup set -> NoDup (addTokens field set).
Proof.
  destruct field as [raw|]; simpl; [|trivial].
  generalize (split "," raw) as toks. intros toks; revert set.
  induction toks as [|t toks IH]; intros set Hs; simpl; [exact Hs|].
  apply IH, Set_add_NoDup; [apply String.eqb_eq | exact Hs].
Qed.

Lemma vocabulary_NoDup (f : LibraryItem -> option string)
  (lib : list LibraryItem) (set : list string) :
  NoDup set -> NoDup (fold_left (fun s item => addTokens (f item) s) lib set).
Proof.
  revert set; induction lib as [|x lib IH]; intros set Hs; simpl;
    [exact Hs|].
  apply IH, addTokens_NoDup, Hs.
Qed.

Lemma addTokens_In (field : option string) (set : list string)
  (g : string) :
  In g (addTokens field set) <->
  In g set
  \/ exists raw tok, field = Some raw /\ In tok (split "," raw)
                     /\ g = trim tok.
Proof.
  destruct field as [raw|]; simpl.
  - rewrite (fold_Set_add_In String.eqb String.eqb_eq trim). split.
    + intros [Hg | [tok [Ht ->]]]; [now left|].
      right. now exists raw, tok.
    + intros [Hg | [raw' [tok [E [Ht ->]]]]]; [now left|].
      injection E as <-. right. now exists tok.
  - split; [now left | intros [Hg | [raw [tok [E _]]]]];
      [exact Hg | discriminate].
Qed.

Lemma vocabulary_In (f : LibraryItem -> option string)
  (lib : list LibraryItem) (set : list string) (g : string) :
  In g (fold_left (fun s item => addTokens (f item) s) lib set) <->
  In g set
  \/ exists item raw tok, In item lib /\ f item = Some raw
                          /\ In tok (split "," raw) /\ g = trim tok.
Proof.
  revert set; induction lib as [|x lib IH]; intros set; simpl.
  - split; [now left | intros [Hg | [i [r [t [[] _]]]]]; exact Hg].
  - rewrite IH, addTokens_In. split.
    + intros [[Hg | [raw [tok [E [Ht ->]]]]] | [i [r [t [Hi Hr]]]]].
      * now left.
      * right. exists x, raw, tok. now split; [left|].
      * right. exists i, r, t. now split; [right|].
    + intros [Hg | [i [r [t [[<- | Hi] [E [Ht ->]]]]]]].
      * left. now left.
      * left. right. now exists r, t.
      * right. now exists i, r, t.
Qed.

Lemma string_le_trans (s t u : string) :
  String.compare s t <> Gt -> String.compare t u <> Gt ->
  String.compare s u <> Gt.
Proof.
  intros Hst Htu.
  destruct (String.compare s t) eqn:E1; [| |congruence].
  - apply String.compare_eq_iff in E1. now subst.
  - destruct (String.compare t u) eqn:E2; [| |congruence].
    + apply String.compare_eq_iff in E2. subst. now rewrite E1.
    + apply OrderedTypeEx.String_as_OT.cmp_lt in E1, E2.
      assert (E3 := OrderedTypeEx.String_as_OT.lt_trans _ _ _ E1 E2).
      apply OrderedTypeEx.String_as_OT.cmp_lt in E3.
      unfold OrderedTypeEx.String_as_OT.cmp in E3. now rewrite E3.
Qed.

(** The default comparator is consistent on every list of strings. *)
Lemma default_compare_consistent (l : list string) :
  consistent_on default_compare l.
Proof.
  intros s t u _ _ _. unfold ordered, SortCompare, default_compare.
  assert (Hss : String.compare s s = Eq).
  { assert (E := String.compare_antisym s s).
    destruct (String.compare s s); [reflexivity | discriminate ..]. }
  assert (Hanti := String.compare_antisym s t).
  assert (Htrans := string_le_trans s t u).
  rewrite Hss.
  destruct (String.compare s t) eqn:Est;
    destruct (String.compare t s) eqn:Ets; try discriminate Hanti;
    destruct (String.compare t u) eqn:Etu;
    destruct (String.compare s u) eqn:Esu; simpl;
    repeat split; try discriminate; try lia;
    intros; exfalso; apply Htrans; congruence.
Qed.

Lemma default_ordered_leb (s t : string) :
  ordered default_compare s t -> String.leb s t = true.
Proof.
  unfold ordered, SortCompare, default_compare, String.leb.
  destruct (String.compare s t); simpl; intros; [reflexivity .. | lia].
Qed.

Lemma sorted_vocabulary {H : Host} (set : list string) :
  Sorted (fun s t => String.leb s t = true)
         (Array_sort default_compare set)
  /\ (NoDup set -> NoDup (Array_sort default_compare set)).
Proof.
  split.
  - assert (Hs := StronglySorted_Sorted
                    (sort_strongly_sorted default_compare set
                       (default_compare_consistent set))).
    induction Hs as [|x l Hl IH Hx]; constructor; [exact IH|].
    destruct Hx; constructor. now apply default_ordered_leb.
  - apply Permutation_NoDup, sort_perm.
Qed.

Lemma NoDup_firstn_nth {A : Type} (l : list A) (n i : nat) (x : A) :
  NoDup l -> (n <= i)%nat -> nth_error l i = Some x -> ~ In x (firstn n l).
Proof.
  intros Hnd Hle Hx Hin.
  apply In_nth_error in Hin. destruct Hin as [j Hj].
  assert (Hjn : (j < n)%nat).
  { assert (Hlt : (j < List.length (firstn n l))%nat).
    { apply nth_error_Some. congruence. }
    rewrite length_firstn in Hlt. lia. }
  rewrite nth_error_firstn in Hj.
  destruct (Nat.ltb_spec j n); [|lia].
  assert (Hij : j = i).
  { rewrite NoDup_nth_error in Hnd. apply Hnd; [|congruence].
    apply nth_error_Some. congruence. }
  lia.
Qed.

End LibraryFacts.

Module LibraryClaims.
Import JS Props Library StringFacts SetFacts SortFacts LibraryFacts.
Import Examples.

(** C9.  [formatDuration] gives the placeholder for a missing duration
    and for a duration of zero alike, so that zero seconds are not shown
    as [0:00]; for a positive [n] it gives the whole minutes, a colon
    and the remaining seconds on two digits, as in [2:05] for 125. *)
Theorem formatDuration_placeholder_and_digits :
  formatDuration None = "--:--"
  /\ formatDuration (Some 0) = "--:--"
  /\ formatDuration (Some 0) <> "0:00"
  /\ (forall n : Z, 0 < n ->
        formatDuration (Some n)
        = toString (n / 60) ++ ":" ++ two_digits (n mod 60))
  /\ formatDuration (Some 125) = "2:05".
Proof.
  split; [reflexivity|]. split; [reflexivity|].
  split; [discriminate|]. split; [|reflexivity].
  intros n Hn. unfold formatDuration.
  destruct (Z.eqb_spec n 0) as [E|_]; [lia|].
  rewrite Z.rem_mod_nonneg by lia.
  do 2 f_equal.
  assert (Hr : 0 <= n mod 60 < 60) by (apply Z.mod_pos_bound; lia).
  generalize dependent (n mod 60). intros r Hr.
  assert (Er : r = Z.of_nat (Z.to_nat r)) by lia.
  assert (Hk : (Z.to_nat r < 60)%nat) by lia.
  rewrite Er. generalize dependent (Z.to_nat r). intros k _ Hk.
  do 60 (destruct k as [|k]; [reflexivity|]). lia.
Qed.

Lemma formatDuration_placeholder_and_digits_witness :
  formatDuration (Some 3599) = "59:59".
Proof.
  rewrite (proj1 (proj2 (proj2 (proj2
             formatDuration_placeholder_and_digits))) 3599 ltac:(lia)).
  reflexivity.
Defined.

(** C4.  Whatever the query, the two selectors and the sort key, an item
    of [filteredLibrary] is an item of [initialLibrary] and meets every
    criterion in force: the lowercased query occurs in its lowercased
    title, artist name or album; the lowercased genre selector, unless
    [all], occurs in its lowercased genre field; likewise the source
    selector in its sources field. *)
Theorem filteredLibrary_subset_and_matches (H : Host)
  (initialLibrary : list LibraryItem) (st : FilterState)
  (item : LibraryItem) :
  In item (filteredLibrary initialLibrary st) ->
  In item initialLibrary
  /\ (searchQuery st <> "" ->
        Substring (toLowerCase (searchQuery st)) (toLowerCase (title item))
        \/ Substring (toLowerCase (searchQuery st))
                     (toLowerCase (artist_name item))
        \/ exists a, album item = Some a
                     /\ Substring (toLowerCase (searchQuery st))
                                  (toLowerCase a))
  /\ (genreFilter st <> "all" ->
        exists raw, genre item = Some raw
                    /\ Substring (toLowerCase (genreFilter st))
                                 (toLowerCase raw))
  /\ (sourceFilter st <> "all" ->
        exists raw, sources item = Some raw
                    /\ Substring (toLowerCase (sourceFilter st))
                                 (toLowerCase raw)).
Proof.
  rewrite filteredLibrary_In. intros [Hin [Hq [Hg Hs]]].
  split; [exact Hin|]. split; [|split].
  - intros Hne. destruct Hq as [Hq|Hq]; [contradiction|].
    unfold matchesSearch in Hq.
    rewrite !orb_true_iff, !includesLower_iff in Hq.
    destruct Hq as [[[r [E Hr]] | [r [E Hr]]] | Ha].
    + left. now injection E as <-.
    + right; left. now injection E as <-.
    + right; right. exact Ha.
  - intros Hne. destruct Hg as [Hg|Hg]; [contradiction|].
    now apply includesLower_iff in Hg.
  - intros Hne. destruct Hs as [Hs|Hs]; [contradiction|].
    now apply includesLower_iff in Hs.
Qed.

Lemma filteredLibrary_subset_and_matches_witness :
  In song1 library2
  /\ Substring "rock" (toLowerCase "Pop,Rock").
Proof.
  destruct (filteredLibrary_subset_and_matches example_host library2
              busyState song1) as [Hin [_ [Hg _]]].
  - vm_compute. left. reflexivity.
  - split; [exact Hin|].
    destruct Hg as [raw [E Hs]]; [discriminate|].
    injection E as <-. exact Hs.
Defined.

(** C6.  With a genre selector other than [all], an item passes the
    genre criterion exactly when its genre field is present and, in
    lower case, contains the lowercased selector; the source selector
    follows the same policy on the sources field.  In the library of the
    two items [Pop,Rock]/[spotify_import] and [Jazz]/[request], the
    genre [Rock] selects the first alone and the source [request] the
    second alone. *)
Theorem selector_substring_policy (H : Host) :
  (forall g item,
      matchesGenre g item = true <->
      exists raw, genre item = Some raw
                  /\ Substring (toLowerCase g) (toLowerCase raw))
  /\ (forall s item,
      matchesSource s item = true <->
      exists raw, sources item = Some raw
                  /\ Substring (toLowerCase s) (toLowerCase raw))
  /\ (forall lib g k item,
      g <> "all" ->
      (In item (filteredLibrary lib
                  {| searchQuery := ""; genreFilter := g;
                     sourceFilter := "all"; sortBy := k |})
       <-> In item lib /\ matchesGenre g item = true)
      /\ (In item (filteredLibrary lib
                  {| searchQuery := ""; genreFilter := "all";
                     sourceFilter := g; sortBy := k |})
       <-> In item lib /\ matchesSource g item = true))
  /\ (forall a b k,
      genre a = Some "Pop,Rock" -> sources a = Some "spotify_import" ->
      genre b = Some "Jazz" -> sources b = Some "request" ->
      filteredLibrary [a; b]
        {| searchQuery := ""; genreFilter := "Rock";
           sourceFilter := "all"; sortBy := k |} = [a]
      /\ filteredLibrary [a; b]
        {| searchQuery := ""; genreFilter := "all";
           sourceFilter := "request"; sortBy := k |} = [b]).
Proof.
  split; [intros; apply includesLower_iff|].
  split; [intros; apply includesLower_iff|].
  split.
  - intros lib g k item Hg. rewrite !filteredLibrary_In. simpl.
    split; tauto.
  - intros a b k Ga Sa Gb Sb. unfold filteredLibrary. simpl.
    unfold matchesGenre, matchesSource. rewrite Ga, Sa, Gb, Sb.
    split; (etransitivity; [|apply sort_singleton]); reflexivity.
Qed.

Lemma selector_substring_policy_witness :
  filteredLibrary (H := example_host) library2
    {| searchQuery := ""; genreFilter := "Rock";
       sourceFilter := "all"; sortBy := Recent |} = [song1]
  /\ filteredLibrary (H := example_host) library2
    {| searchQuery := ""; genreFilter := "all";
       sourceFilter := "request"; sortBy := Recent |} = [song2].
Proof.
  apply (proj2 (proj2 (proj2
           (selector_substring_policy example_host))));
    reflexivity.
Defined.

Lemma example_host_consistent : locale_consistent example_host.
Proof.
  intros s t u. simpl.
  assert (Hss : String.compare s s = Eq).
  { assert (E := String.compare_antisym s s).
    destruct (String.compare s s); [reflexivity | discriminate ..]. }
  assert (Hanti := String.compare_antisym s t).
  assert (Htrans := string_le_trans s t u).
  rewrite Hss.
  destruct (String.compare s t) eqn:Est;
    destruct (String.compare t s) eqn:Ets; try discriminate Hanti;
    destruct (String.compare t u) eqn:Etu;
    destruct (String.compare s u) eqn:Esu; simpl;
    repeat split; try discriminate; try lia;
    intros; exfalso; apply Htrans; congruence.
Qed.




(** C2, as the code has it.  [clearFilters] empties the query and puts
    both selectors on [all] in one update, and leaves the sort key as it
    is.  Afterwards [hasActiveFilters] is false and [filteredLibrary] is
    a rearrangement of the whole of [initialLibrary].  When the
    comparator of the current sort key is consistent on the library
    (always for plays and likes; for title and artist when the host's
    [localeCompare] is a consistent comparator; for recent when every
    [last_added] is a valid date), the rows are in the order of that
    key, items that compare equal are in the order of the library, and
    the rows are [initialLibrary] itself when [initialLibrary] is
    already in the order of the key. *)
Theorem clearFilters_shows_whole_library (H : Host)
  (initialLibrary : list LibraryItem) (st : FilterState) :
  searchQuery (clearFilters st) = ""
  /\ genreFilter (clearFilters st) = "all"
  /\ sourceFilter (clearFilters st) = "all"
  /\ sortBy (clearFilters st) = sortBy st
  /\ hasActiveFilters (clearFilters st) = false
  /\ Permutation initialLibrary
                 (filteredLibrary initialLibrary (clearFilters st))
  /\ (key_consistent H (sortBy st) initialLibrary ->
      StronglySorted (ordered (compareItems (sortBy st)))
                     (filteredLibrary initialLibrary (clearFilters st))
      /\ (forall keep : LibraryItem -> bool,
            (forall x y, keep x = true -> keep y = true ->
                         SortCompare (compareItems (sortBy st)) x y = 0) ->
            filter keep (filteredLibrary initialLibrary (clearFilters st))
            = filter keep initialLibrary)
      /\ (Sorted (ordered (compareItems (sortBy st))) initialLibrary ->
          filteredLibrary initialLibrary (clearFilters st)
          = initialLibrary)).
Proof.
  assert (E : filteredLibrary initialLibrary (clearFilters st)
              = Array_sort (compareItems (sortBy st)) initialLibrary)
    by reflexivity.
  repeat (split; [reflexivity|]). rewrite E.
  split; [apply sort_perm|]. intros Hk.
  assert (Hc := compareItems_consistent_on (sortBy st) initialLibrary Hk).
  split; [now apply sort_strongly_sorted|]. split.
  - intros keep Hkeep. apply sort_stable; [exact Hc|].
    intros x y _ _ Hx Hy. rewrite (Hkeep x y Hx Hy). lia.
  - now apply sort_sorted_id.
Qed.

Lemma clearFilters_shows_whole_library_witness :
  filteredLibrary (H := example_host) [song2; song1]
                  (clearFilters busyState) = [song2; song1].
Proof.
  apply (proj2 (proj2 (proj2 (proj2 (proj2 (proj2
           (clearFilters_shows_whole_library example_host
              [song2; song1] busyState))))))).
  - exact I.
  - repeat constructor. vm_compute. discriminate.
Defined.

(** C2, as the specification states it, fails: with the library
    [song1; song2] the list shown after [clearFilters] is
    [song2; song1], both when the sort key was [Plays] (which
    [clearFilters] does not put back to [Recent]) and in the initial
    state, where the key is [Recent]. *)
Lemma clearFilters_order_counterexample :
  sortBy (clearFilters busyState) <> Recent
  /\ filteredLibrary (H := example_host) library2 (clearFilters busyState)
     <> library2
  /\ filteredLibrary (H := example_host) library2
                     (clearFilters initialState)
     <> library2.
Proof.
  split; [discriminate|]. split; vm_compute; discriminate.
Qed.

(** C8.  The statistics of the header are the same under any two states
    of the query, the selectors and the sort key, and they are taken
    over the whole of [initialLibrary]: its length, the plays and likes
    of all its items, and the hours and minutes of the sum of all its
    durations. *)
Theorem stats_ignore_filters (H : Host)
  (initialLibrary : list LibraryItem) (st1 st2 : FilterState) :
  stats (LibraryPageClient initialLibrary st1)
  = stats (LibraryPageClient initialLibrary st2)
  /\ songs (stats (LibraryPageClient initialLibrary st1))
     = List.length initialLibrary
  /\ (exists names : list string,
        NoDup names
        /\ (forall a, In a names <->
                      exists i, In i initialLibrary /\ artist_name i = a)
        /\ artists (stats (LibraryPageClient initialLibrary st1))
           = List.length names)
  /\ genres (stats (LibraryPageClient initialLibrary st1))
     = List.length (allGenres initialLibrary)
  /\ plays (stats (LibraryPageClient initialLibrary st1))
     = sumZ play_count initialLibrary
  /\ likes (stats (LibraryPageClient initialLibrary st1))
     = sumZ like_count initialLibrary
  /\ hours (stats (LibraryPageClient initialLibrary st1))
     = sumZ (fun i => duration_or_0 (duration_seconds i)) initialLibrary
       / 3600
  /\ mins (stats (LibraryPageClient initialLibrary st1))
     = Z.rem (sumZ (fun i => duration_or_0 (duration_seconds i))
                   initialLibrary) 3600 / 60.
Proof.
  assert (Ed : totalDuration initialLibrary
               = sumZ (fun i => duration_or_0 (duration_seconds i))
                      initialLibrary).
  { unfold totalDuration. rewrite fold_left_sum. simpl.
    induction initialLibrary as [|x l IH]; simpl; [reflexivity|].
    rewrite IH. f_equal.
    destruct (duration_seconds x); simpl; [apply or_num_0 | reflexivity]. }
  assert (Es : forall f : LibraryItem -> Z,
             fold_left (fun sum i => sum + or_num (f i) 0) initialLibrary 0
             = sumZ f initialLibrary).
  { intros f. rewrite fold_left_sum. simpl. clear Ed.
    induction initialLibrary as [|x l IH]; simpl; [reflexivity|].
    rewrite or_num_0. f_equal. apply IH. }
  split; [reflexivity|]. split; [reflexivity|]. split.
  { exists (Set_of String.eqb (map artist_name initialLibrary)).
    split; [|split; [|reflexivity]].
    - apply (fold_Set_add_NoDup String.eqb String.eqb_eq (fun a => a)).
      constructor.
    - intros a. unfold Set_of.
      rewrite (fold_Set_add_In String.eqb String.eqb_eq (fun a => a)).
      split.
      + intros [[] | [b [Hb ->]]].
        apply in_map_iff in Hb. destruct Hb as [i [E Hi]]. now exists i.
      + intros [i [Hi <-]]. right. exists (artist_name i).
        split; [now apply in_map | reflexivity]. }
  split; [reflexivity|]. simpl.
  split; [apply Es|]. split; [apply Es|].
  unfold totalHours, totalMins. rewrite Ed. split; reflexivity.
Qed.



End LibraryClaims.

(** ** The Services page *)

Module ServicesFacts.
Import JS Services SetFacts.
Local Open Scope task_scope.

Lemma run_bind {A B : Type} (t : Task A) (f : A -> Task B)
  (w : World) (c : Config) :
  run (bind t f) w c =
  match run t w c with
  | (inl e, c', tr) => (inl e, c', tr)
  | (inr a, c', tr) =>
      let '(r, c'', tr') := run (f a) w c' in (r, c'', (tr ++ tr')%list)
  end.
Proof.
  revert c.
  induction t as [a|e|m u k IH|r k IH|ms k IH|l e k IH|a k IH];
    intros [st n]; simpl.
  - now destruct (run (f a) w (st, n)) as [[r c''] tr'].
  - reflexivity.
  - rewrite IH.
    destruct (run (k (net w n m u)) w (others w n st, S n))
      as [[[e|a] c'] tr]; [reflexivity|].
    now destruct (run (f a) w c') as [[r c''] tr'].
  - apply IH.
  - rewrite IH.
    destruct (run k w (others w n st, S n)) as [[[e|a] c'] tr];
      [reflexivity|].
    now destruct (run (f a) w c') as [[r c''] tr'].
  - rewrite IH.
    destruct (run k w (st, n)) as [[[e'|a] c'] tr]; [reflexivity|].
    now destruct (run (f a) w c') as [[r c''] tr'].
  - rewrite IH.
    destruct (run k w (apply_action a st, n)) as [[[e|a'] c'] tr];
      [reflexivity|].
    now destruct (run (f a') w c') as [[r c''] tr'].
Qed.

Lemma run_try_catch {A : Type} (t : Task A) (h : string -> Task A)
  (w : World) (c : Config) :
  run (try_catch t h) w c =
  match run t w c with
  | (inl e, c', tr) =>
      let '(r, c'', tr') := run (h e) w c' in (r, c'', (tr ++ tr')%list)
  | (inr a, c', tr) => (inr a, c', tr)
  end.
Proof.
  revert c.
  induction t as [a|e|m u k IH|r k IH|ms k IH|l e k IH|a k IH];
    intros [st n]; simpl.
  - reflexivity.
  - now destruct (run (h e) w (st, n)) as [[r c''] tr'].
  - rewrite IH.
    destruct (run (k (net w n m u)) w (others w n st, S n))
      as [[[e|a] c'] tr]; [|reflexivity].
    now destruct (run (h e) w c') as [[r c''] tr'].
  - apply IH.
  - rewrite IH.
    destruct (run k w (others w n st, S n)) as [[[e|a] c'] tr];
      [|reflexivity].
    now destruct (run (h e) w c') as [[r c''] tr'].
  - rewrite IH.
    destruct (run k w (st, n)) as [[[e'|a] c'] tr]; [|reflexivity].
    now destruct (run (h e') w c') as [[r c''] tr'].
  - rewrite IH.
    destruct (run k w (apply_action a st, n)) as [[[e|a'] c'] tr];
      [|reflexivity].
    now destruct (run (h e) w c') as [[r c''] tr'].
Qed.

Lemma run_try_finally {A : Type} (t : Task A) (f : Task unit)
  (w : World) (c : Config) :
  run (try_finally t f) w c =
  let '(r, c', tr) := run t w c in
  let '(rf, c'', tr') := run f w c' in
  (match rf with inl e => inl e | inr _ => r end, c'', (tr ++ tr')%list).
Proof.
  revert c.
  induction t as [a|e|m u k IH|r k IH|ms k IH|l e k IH|a k IH];
    intros [st n]; simpl.
  - rewrite run_bind.
    now destruct (run f w (st, n)) as [[[e|[]] c''] tr'];
      simpl; rewrite ?app_nil_r.
  - rewrite run_bind.
    now destruct (run f w (st, n)) as [[[e'|[]] c''] tr'];
      simpl; rewrite ?app_nil_r.
  - rewrite IH.
    destruct (run (k (net w n m u)) w (others w n st, S n))
      as [[r' c'] tr].
    now destruct (run f w c') as [[rf c''] tr'].
  - apply IH.
  - rewrite IH.
    destruct (run k w (others w n st, S n)) as [[r' c'] tr].
    now destruct (run f w c') as [[rf c''] tr'].
  - rewrite IH.
    destruct (run k w (st, n)) as [[r' c'] tr].
    now destruct (run f w c') as [[rf c''] tr'].
  - rewrite IH.
    destruct (run k w (apply_action a st, n)) as [[r' c'] tr].
    now destruct (run f w c') as [[rf c''] tr'].
Qed.

(** The poller does not throw, and its first effect is the request. *)
Lemma fetchServices_total (w : World) (c : Config) :
  result (run fetchServices w c) = inr tt
  /\ exists tr, trace (run fetchServices w c)
                = EvFetch "GET" (BOT_API_URL ++ "/services") :: tr.
Proof.
  destruct c as [st n]. unfold fetchServices. simpl.
  destruct (net w n "GET" "/api/bot/services") as [e|r]; simpl.
  - split; [reflexivity | eexists; reflexivity].
  - destruct (ok r); simpl.
    + destruct (resp_body r) as [e| |s e]; simpl;
        (split; [reflexivity | eexists; reflexivity]).
    + split; [reflexivity | eexists; reflexivity].
Qed.

(** A poll that fails. *)
Lemma fetchServices_failure (w : World) (st : PageState) (n : nat) :
  (exists e, net w n "GET" (BOT_API_URL ++ "/services") = NetworkError e)
  \/ (exists r, net w n "GET" (BOT_API_URL ++ "/services") = Resolved r
                /\ ok r = false) ->
  services (final (run fetchServices w (st, n))) = fallbackServices
  /\ error (final (run fetchServices w (st, n)))
     = Some "Failed to connect to bot API"
  /\ loading (final (run fetchServices w (st, n))) = false.
Proof.
  unfold fetchServices. simpl.
  intros [[e E] | [r [E Hr]]]; rewrite E; simpl;
    [|rewrite Hr; simpl]; repeat split; reflexivity.
Qed.

(** A poll that succeeds. *)
Lemma fetchServices_success (w : World) (st : PageState) (n : nat)
  (r : Response) (sv : option (list Service)) (ev : option string) :
  net w n "GET" (BOT_API_URL ++ "/services") = Resolved r ->
  ok r = true -> resp_body r = JsonValue sv ev ->
  services (final (run fetchServices w (st, n))) = or_list sv []
  /\ error (final (run fetchServices w (st, n))) = None
  /\ loading (final (run fetchServices w (st, n))) = false.
Proof.
  unfold fetchServices. simpl. intros E Hr Hb.
  rewrite E. simpl. rewrite Hr. simpl. rewrite Hb. simpl.
  repeat split; reflexivity.
Qed.

(** The button of a card that shows a restart in progress, or a service
    that cannot be restarted, does nothing. *)
Lemma button_click_disabled (st : PageState) (p : ServiceCardProps)
  (w : World) (n : nat) :
  In p (cards st) ->
  restartable (service p) = false
  \/ Set_has String.eqb (id (service p)) (restartingServices st) = true ->
  run (button_click p) w (st, n) = (inr tt, (st, n), []).
Proof.
  unfold cards, button_click, button_disabled. intros Hin Hd.
  destruct (loading st); [contradiction|].
  apply in_map_iff in Hin. destruct Hin as [s [<- Hs]]. simpl in *.
  destruct Hd as [-> | ->]; simpl; [|reflexivity].
  now rewrite orb_true_r.
Qed.

(** The button of any other card starts [handleRestart]. *)
Lemma button_click_enabled (st : PageState) (p : ServiceCardProps) :
  In p (cards st) ->
  restartable (service p) = true ->
  Set_has String.eqb (id (service p)) (restartingServices st) = false ->
  button_click p = handleRestart (id (service p)).
Proof.
  unfold cards, button_click, button_disabled. intros Hin Hr Hs.
  destruct (loading st); [contradiction|].
  apply in_map_iff in Hin. destruct Hin as [s [<- Hin]]. simpl in *.
  now rewrite Hr, Hs.
Qed.

End ServicesFacts.

Module ServicesClaims.
Import JS Services SetFacts ServicesFacts Examples.

(** C5.  When the request of [fetchServices] fails in the network or is
    answered outside 200-299, the service list becomes the fixed
    fallback of two entries (the bot, offline and restartable, and the
    dashboard, online and not restartable) and the error message is
    set; when the next poll is answered in 200-299 with a body, the
    error is cleared and the list is the [services] of that body. *)
Theorem fetchServices_fallback_then_recovery
  (w : World) (st : PageState) (n : nat) :
  (exists e, net w n "GET" (BOT_API_URL ++ "/services") = NetworkError e)
  \/ (exists r, net w n "GET" (BOT_API_URL ++ "/services") = Resolved r
                /\ ok r = false) ->
  let failed := run fetchServices w (st, n) in
  result failed = inr tt
  /\ services (final failed) = fallbackServices
  /\ error (final failed) = Some "Failed to connect to bot API"
  /\ (exists b d, services (final failed) = [b; d]
        /\ id b = "bot" /\ status b = offline /\ restartable b = true
        /\ id d = "dashboard" /\ status d = online
        /\ restartable d = false)
  /\ forall (w' : World) (n' : nat) (r' : Response)
            (l : list Service) (ev : option string),
       net w' n' "GET" (BOT_API_URL ++ "/services") = Resolved r' ->
       ok r' = true -> resp_body r' = JsonValue (Some l) ev ->
       let polled := run fetchServices w' (final failed, n') in
       result polled = inr tt
       /\ error (final polled) = None
       /\ services (final polled) = l.
Proof.
  intros Hfail failed.
  destruct (fetchServices_failure w st n Hfail) as [Hs [He _]].
  fold failed in Hs, He.
  split; [apply fetchServices_total|].
  split; [exact Hs|]. split; [exact He|]. split.
  - rewrite Hs. do 2 eexists. split; [reflexivity|].
    repeat split; reflexivity.
  - intros w' n' r' l ev E Hok Hb polled.
    destruct (fetchServices_success w' (final failed) n' r' (Some l) ev
                E Hok Hb) as [Hs' [He' _]].
    split; [apply fetchServices_total|]. split; assumption.
Qed.

Lemma fetchServices_fallback_then_recovery_witness :
  error (final (run fetchServices world_500 (initialPage, O)))
  = Some "Failed to connect to bot API"
  /\ services
       (final (run fetchServices world_200
                 (final (run fetchServices world_500 (initialPage, O)),
                  1%nat)))
     = [bot_online].
Proof.
  destruct (fetchServices_fallback_then_recovery world_500 initialPage O)
    as [_ [_ [He [_ Hnext]]]].
  - right. eexists. split; reflexivity.
  - split; [exact He|].
    apply (Hnext world_200 1%nat _ [bot_online] None eq_refl);
      reflexivity.
Defined.

(** C3.  Asking for a restart of a service that is in the restarting
    set, or whose [restartable] flag is false, does nothing: no request
    is sent, no other effect happens and the page state (restarting
    set, service list, error, loading) is what it was. *)
Theorem restart_guarded_noop
  (w : World) (st : PageState) (n : nat) (serviceId : string) :
  Set_has String.eqb serviceId (restartingServices st) = true
  \/ (forall s, In s (services st) -> id s = serviceId ->
                restartable s = false) ->
  run (restart st serviceId) w (st, n) = (inr tt, (st, n), []).
Proof.
  intros Hguard. unfold restart.
  destruct (find _ (cards st)) as [p|] eqn:Ef; [|reflexivity].
  apply find_some in Ef. destruct Ef as [Hin Hid].
  apply String.eqb_eq in Hid.
  apply button_click_disabled; [exact Hin|].
  destruct Hguard as [Hset | Hflag].
  - right. now rewrite Hid.
  - left. apply Hflag; [|exact Hid].
    unfold cards in Hin. destruct (loading st); [contradiction|].
    apply in_map_iff in Hin. now destruct Hin as [s [<- Hs]].
Qed.

Lemma restart_guarded_noop_witness :
  run (restart page_restarting "bot") world_200 (page_restarting, O)
  = (inr tt, (page_restarting, O), [])
  /\ run (restart page_idle "dashboard") world_200 (page_idle, O)
     = (inr tt, (page_idle, O), []).
Proof.
  split.
  - apply restart_guarded_noop. left. reflexivity.
  - apply restart_guarded_noop. right.
    intros s [<- | [<- | []]] E; [discriminate | reflexivity].
Defined.

(** C1, as the code has it.  A restart that passes the guard of the
    button runs [handleRestart].  [handleRestart] does not throw, and
    when it finishes the id is out of the restarting set, whatever the
    answer to the restart request and whatever other tasks did to the
    state meanwhile.  When the request is answered in 200-299, the effects
    are: the id is added, the request is sent, five seconds pass,
    [fetchServices] runs, and then the id is removed.  When the request
    fails in the network or is answered outside 200-299, the effects
    are: the id is added, the request is sent, the failure is logged and
    the id is removed; there is no wait and no new poll. *)
Theorem handleRestart_effects
  (w : World) (st : PageState) (n : nat) (serviceId : string) :
  let url := BOT_API_URL ++ "/services/" ++ serviceId ++ "/restart" in
  let done := run (handleRestart serviceId) w (st, n) in
  (forall p,
      find (fun p => String.eqb (id (service p)) serviceId) (cards st)
      = Some p ->
      button_disabled p = false ->
      restart st serviceId = handleRestart serviceId)
  /\ result done = inr tt
  /\ Set_has String.eqb serviceId (restartingServices (final done))
     = false
  /\ (forall r, net w n "POST" url = Resolved r -> ok r = true ->
      exists c tr,
        trace (run fetchServices w c)
        = EvFetch "GET" (BOT_API_URL ++ "/services") :: tr
        /\ trace done
           = ([EvSet (addRestarting serviceId); EvFetch "POST" url;
               EvSleep 5000]
              ++ trace (run fetchServices w c)
              ++ [EvSet (deleteRestarting serviceId)])%list)
  /\ ((exists e, net w n "POST" url = NetworkError e)
      \/ (exists r, net w n "POST" url = Resolved r /\ ok r = false) ->
      exists msg,
        trace done
        = [EvSet (addRestarting serviceId); EvFetch "POST" url;
           EvConsoleError "Failed to restart service:" msg;
           EvSet (deleteRestarting serviceId)]).
Proof.
  intros url done. split.
  { intros p Hfind Hdis. unfold restart. rewrite Hfind.
    unfold button_click. rewrite Hdis.
    apply find_some in Hfind. destruct Hfind as [Hin Hid].
    apply String.eqb_eq in Hid. rewrite <- Hid.
    unfold cards in Hin. destruct (loading st); [contradiction|].
    apply in_map_iff in Hin. now destruct Hin as [s [<- _]]. }
  subst done url. unfold handleRestart.
  remember (BOT_API_URL ++ "/services/" ++ serviceId ++ "/restart")
    as url eqn:Eurl.
  assert (Hdel : forall s, Set_has String.eqb serviceId
                   (restartingServices
                      (apply_action (deleteRestarting serviceId) s))
                 = false).
  { intros s. simpl. apply Set_delete_has, String.eqb_eq. }
  remember fetchServices as poll eqn:Epoll. simpl.
  destruct (net w n "POST" url) as [e|r] eqn:E; simpl.
  - split; [reflexivity|]. split; [apply Hdel|]. split.
    + intros r Hr. discriminate.
    + intros _. now exists e.
  - destruct (ok r) eqn:Hok; simpl.
    + rewrite run_try_finally, run_try_catch.
      destruct (fetchServices_total w
                  (others w (S n)
                     (others w n (apply_action (addRestarting serviceId)
                                               st)), S (S n)))
        as [Hres [tr Htr]].
      rewrite <- Epoll in Hres, Htr. simpl in Hres, Htr.
      destruct (run poll w _) as [[res [st' n']] tr0] eqn:Erun.
      unfold result in Hres. simpl in Hres. subst res. simpl.
      split; [reflexivity|]. split; [apply Hdel|]. split.
      * intros r0 _ _. eexists. exists tr. rewrite Erun.
        split; [exact Htr | reflexivity].
      * intros [[e He] | [r0 [Hr0 Hf]]]; [discriminate|].
        injection Hr0 as <-. congruence.
    + destruct (resp_body r) as [e| |sv ev]; simpl;
        (split; [reflexivity|]; split; [apply Hdel|]; split;
         [intros r0 Hr0 Hr1; injection Hr0 as <-; congruence
         |intros _; eexists; reflexivity]).
Qed.

(** C1, as the specification states it, fails: when the restart request
    is answered with status 500, [handleRestart] neither waits nor polls
    again; it logs the failure and removes the id. *)
Lemma handleRestart_failure_counterexample :
  trace (run (handleRestart "bot") world_500 (page_idle, O))
  = [EvSet (addRestarting "bot");
     EvFetch "POST" "/api/bot/services/bot/restart";
     EvConsoleError "Failed to restart service:" "Restart failed";
     EvSet (deleteRestarting "bot")]
  /\ ~ In (EvSleep 5000)
          (trace (run (handleRestart "bot") world_500 (page_idle, O)))
  /\ ~ In (EvFetch "GET" "/api/bot/services")
          (trace (run (handleRestart "bot") world_500 (page_idle, O))).
Proof.
  split; [reflexivity|].
  split; vm_compute; intros H;
    repeat (destruct H as [H|H]; [discriminate H|]); exact H.
Qed.

Lemma handleRestart_effects_witness :
  restart page_idle "bot" = handleRestart "bot"
  /\ Set_has String.eqb "bot"
    (restartingServices
       (final (run (handleRestart "bot") world_200 (page_idle, O))))
  = false
  /\ exists c tr,
       trace (run fetchServices world_200 c)
       = EvFetch "GET" (BOT_API_URL ++ "/services") :: tr
       /\ trace (run (handleRestart "bot") world_200 (page_idle, O))
          = ([EvSet (addRestarting "bot");
              EvFetch "POST" (BOT_API_URL ++ "/services/" ++ "bot"
                              ++ "/restart");
              EvSleep 5000]
             ++ trace (run fetchServices world_200 c)
             ++ [EvSet (deleteRestarting "bot")])%list.
Proof.
  destruct (handleRestart_effects world_200 page_idle O "bot")
    as [Hguard [_ [Hs [Hok _]]]].
  split; [eapply Hguard; reflexivity|].
  split; [exact Hs | exact (Hok _ eq_refl eq_refl)].
Defined.

End ServicesClaims.

(** * Further properties of the Library page *)

Module LibraryMoreFacts.
Import JS Props Library LibraryCard MoreProps.
Import StringFacts SetFacts SortFacts LibraryFacts.

Lemma filter_twice {A : Type} (p q : A -> bool) (l : list A) :
  filter p (filter q l) = filter (fun x => q x && p x) l.
Proof.
  induction l as [|x l IH]; simpl; [reflexivity|].
  destruct (q x); simpl; [destruct (p x)|]; now rewrite IH.
Qed.

Lemma filter_when {A : Type} (b : bool) (p : A -> bool) (l : list A) :
  (if b then filter p l else l) = filter (fun x => negb b || p x) l.
Proof.
  destruct b; simpl; [reflexivity|].
  induction l as [|x l IH]; simpl; [reflexivity | now rewrite <- IH].
Qed.

Lemma filter_all {A : Type} (p : A -> bool) (l : list A) :
  (forall x, In x l -> p x = true) -> filter p l = l.
Proof.
  induction l as [|x l IH]; intros Hp; simpl; [reflexivity|].
  rewrite (Hp x (or_introl eq_refl)), IH; [reflexivity|].
  intros y Hy. apply Hp. now right.
Qed.

Lemma filter_length_le {A : Type} (p : A -> bool) (l : list A) :
  (List.length (filter p l) <= List.length l)%nat.
Proof.
  induction l as [|x l IH]; simpl; [lia|].
  destruct (p x); simpl; lia.
Qed.

(** Dropping items keeps their keys distinct. *)
Lemma distinct_keys_filter {V K : Type} (key : V -> K)
  (keep : V -> bool) (items : list V) (Hnd : NoDup (map key items)) :
  NoDup (map key (filter keep items)).
Proof.
  induction items as [|v items IH]; simpl in *; [constructor|].
  apply NoDup_cons_iff in Hnd. destruct Hnd as [Hv Hrest].
  destruct (keep v); simpl; [|now apply IH].
  apply NoDup_cons; [|now apply IH].
  intros Hin. apply Hv. apply in_map_iff in Hin.
  destruct Hin as [u [Eu Hu]]. apply filter_In in Hu.
  rewrite <- Eu. now apply in_map.
Qed.

Section WithHost.
Context {H : Host}.

(** [filteredLibrary] is the sort of the items that pass. *)
Lemma filteredLibrary_sort_filter (lib : list LibraryItem)
  (st : FilterState) :
  filteredLibrary lib st
  = Array_sort (compareItems (sortBy st)) (filter (passes st) lib).
Proof.
  unfold filteredLibrary. f_equal.
  rewrite !filter_when, !filter_twice.
  apply filter_ext. intros x. unfold passes.
  rewrite !negb_involutive. now rewrite andb_assoc.
Qed.

Lemma filteredLibrary_length_le (lib : list LibraryItem)
  (st : FilterState) :
  (List.length (filteredLibrary lib st) <= List.length lib)%nat.
Proof.
  rewrite filteredLibrary_sort_filter, sort_length.
  apply filter_length_le.
Qed.

Lemma filteredLibrary_unfiltered (lib : list LibraryItem)
  (st : FilterState) :
  hasActiveFilters st = false ->
  Permutation lib (filteredLibrary lib st).
Proof.
  intros Hact.
  rewrite filteredLibrary_sort_filter, <- sort_perm.
  rewrite filter_all; [reflexivity|].
  intros x _. unfold hasActiveFilters in Hact.
  rewrite !orb_false_iff, !negb_false_iff in Hact.
  destruct Hact as [[Hq Hg] Hs]. unfold passes.
  now rewrite Hq, Hg, Hs.
Qed.

Lemma filteredLibrary_nil (st : FilterState) : filteredLibrary [] st = [].
Proof. now rewrite filteredLibrary_sort_filter. Qed.

End WithHost.

(** The filters of the page decide [Meets]. *)
Lemma passes_iff_Meets (st : FilterState) (item : LibraryItem) :
  passes st item = true <-> Meets st item.
Proof.
  unfold passes, Meets.
  rewrite !andb_true_iff, !orb_true_iff, negb_true_iff.
  unfold matchesSearch, matchesGenre, matchesSource.
  rewrite !orb_true_iff, !includesLower_iff, !String.eqb_eq.
  assert (Hq : truthy (searchQuery st) = false <-> searchQuery st = "").
  { destruct (searchQuery st); simpl; split; congruence. }
  rewrite Hq.
  destruct (String.eqb_spec (searchQuery st) "") as [Eq|Eq];
    destruct (String.eqb_spec (genreFilter st) "all") as [Eg|Eg];
    destruct (String.eqb_spec (sourceFilter st) "all") as [Es|Es];
    (split;
     [ intros [[Sq Sg] Ss]; split; [|split]; intros Hne;
       [ destruct Sq as [Sq | [[[r [E Hr]] | [r [E Hr]]] | Ha]];
         [ contradiction
         | left; now injection E as <-
         | right; left; now injection E as <-
         | right; right; exact Ha ]
       | destruct Sg as [Sg | Sg]; [contradiction | exact Sg]
       | destruct Ss as [Ss | Ss]; [contradiction | exact Ss] ]
     | intros [Mq [Mg Ms]]; split; [split|];
       [ first [ now left
               | right; destruct (Mq Eq) as [Ht | [Ha | Hb]];
                 [ left; left; now exists (title item)
                 | left; right; now exists (artist_name item)
                 | right; exact Hb ] ]
       | first [ now left | right; exact (Mg Eg) ]
       | first [ now left | right; exact (Ms Es) ] ] ]).
Qed.

(** *** Pieces of strings *)

Lemma Substring_refl (s : string) : Substring s s.
Proof.
  exists "", "". simpl.
  induction s as [|c s IH]; simpl; [reflexivity | now rewrite <- IH].
Qed.

Lemma append_assoc (a b c : string) : (a ++ b) ++ c = a ++ b ++ c.
Proof.
  induction a as [|x a IH]; simpl; [reflexivity | now rewrite IH].
Qed.

Lemma Substring_trans (a b c : string) :
  Substring a b -> Substring b c -> Substring a c.
Proof.
  intros [p [q ->]] [p' [q' ->]].
  exists (p' ++ p), (q ++ q'). now rewrite !append_assoc.
Qed.

Lemma Substring_cons (c : ascii) (q s : string) :
  Substring q s -> Substring q (String c s).
Proof. intros [a [b ->]]. now exists (String c a), b. Qed.

Lemma toLowerCase_app (a b : string) :
  toLowerCase (a ++ b) = toLowerCase a ++ toLowerCase b.
Proof.
  induction a as [|x a IH]; simpl; [reflexivity | now rewrite IH].
Qed.

Lemma toLowerCase_Substring (q s : string) :
  Substring q s -> Substring (toLowerCase q) (toLowerCase s).
Proof.
  intros [a [b ->]]. exists (toLowerCase a), (toLowerCase b).
  now rewrite !toLowerCase_app.
Qed.

Lemma trimStart_Substring (s : string) : Substring (trimStart s) s.
Proof.
  induction s as [|c s IH]; simpl; [apply Substring_refl|].
  destruct (isWhiteSpace c);
    [now apply Substring_cons | apply Substring_refl].
Qed.

Lemma trimEnd_prefix (s : string) : exists b, s = trimEnd s ++ b.
Proof.
  induction s as [|c s [b Hb]]; simpl; [now exists ""|].
  destruct (trimEnd s) as [|d t] eqn:E.
  - destruct (isWhiteSpace c).
    + now exists (String c s).
    + exists s. reflexivity.
  - exists b. simpl in *. now rewrite <- Hb.
Qed.

Lemma trim_Substring (s : string) : Substring (trim s) s.
Proof.
  unfold trim. apply Substring_trans with (trimStart s);
    [|apply trimStart_Substring].
  destruct (trimEnd_prefix (trimStart s)) as [b Hb].
  now exists "", b.
Qed.

Lemma split_nonempty (sep : ascii) (s : string) : split sep s <> [].
Proof.
  destruct s as [|c s]; simpl; [discriminate|].
  destruct (Ascii.eqb c sep); [discriminate|].
  destruct (split sep s); discriminate.
Qed.

Lemma split_Substring (sep : ascii) (s tok : string) :
  In tok (split sep s) -> Substring tok s.
Proof.
  revert tok; induction s as [|c s IH]; intros tok; simpl.
  - intros [<- | []]. apply Substring_refl.
  - destruct (Ascii.eqb c sep).
    + intros [<- | Hin].
      * now exists "", (String c s).
      * now apply Substring_cons, IH.
    + destruct (split sep s) as [|w ws] eqn:E.
      * intros [<- | []]. now exists "", s.
      * intros [<- | Hin].
        -- destruct (IH w (or_introl eq_refl)) as [a [b Hab]].
           assert (Hw : exists b', s = w ++ b').
           { clear IH Hab a b. revert w ws E.
             induction s as [|d s IHs]; intros w ws E; simpl in E.
             - injection E as <- _. now exists "".
             - destruct (Ascii.eqb d sep).
               + injection E as <- _. now exists (String d s).
               + destruct (split sep s) as [|w' ws'] eqn:E'.
                 * injection E as <- _. now exists s.
                 * injection E as <- _.
                   destruct (IHs w' ws' eq_refl) as [b' Hb'].
                   exists b'. simpl. now rewrite <- Hb'. }
           destruct Hw as [b' ->]. now exists "", b'.
        -- apply Substring_cons, IH. now right.
Qed.

Lemma split_length (sep : ascii) (s : string) :
  List.length (split sep s) = S (count_unit sep s).
Proof.
  induction s as [|c s IH]; simpl; [reflexivity|].
  destruct (Ascii.eqb c sep); simpl; [now rewrite IH|].
  destruct (split sep s) as [|w ws]; simpl in *; [discriminate | exact IH].
Qed.

End LibraryMoreFacts.

Module LibraryMore.
Import JS Props Library LibraryCard MoreProps.
Import StringFacts SetFacts SortFacts LibraryFacts LibraryMoreFacts.
Import Examples MoreExamples.

(** X1.  The rows shown are exactly the items of the library that meet
    the criteria in force, each as often as it is in the library: an
    item is a row if and only if it is in the library and [Meets] holds
    of it, and the rows are a rearrangement of the items of the library
    of which [Meets] holds, so that no such item is dropped and none is
    shown twice. *)
Theorem rows_are_the_passing_items (H : Host)
  (initialLibrary : list LibraryItem) (st : FilterState) :
  (forall item,
      In item (filteredLibrary initialLibrary st) <->
      In item initialLibrary /\ Meets st item)
  /\ exists keep : LibraryItem -> bool,
       (forall item, keep item = true <-> Meets st item)
       /\ Permutation (filter keep initialLibrary)
                      (filteredLibrary initialLibrary st).
Proof.
  rewrite filteredLibrary_sort_filter. split.
  - intros item. rewrite sort_In, filter_In, passes_iff_Meets.
    reflexivity.
  - exists (passes st). split; [apply passes_iff_Meets | apply sort_perm].
Qed.

Lemma rows_are_the_passing_items_witness :
  In song1 (filteredLibrary (H := example_host) library3 rockState)
  /\ ~ In song2 (filteredLibrary (H := example_host) library3 rockState).
Proof.
  destruct (rows_are_the_passing_items example_host library3 rockState)
    as [Hrows _].
  split.
  - apply Hrows. split; [now left|]. split; [|split].
    + intros Hne. now contradiction Hne.
    + intros _. exists "Pop,Rock". split; [reflexivity|].
      now exists "pop,", "".
    + intros Hne. now contradiction Hne.
  - intros Hin. apply Hrows in Hin. destruct Hin as [_ [_ [Hg _]]].
    destruct Hg as [raw [E [p [q Hpq]]]]; [discriminate|].
    injection E as <-. simpl in Hpq.
    destruct p as [|c1 [|c2 [|c3 [|c4 p]]]]; simpl in Hpq;
      try discriminate Hpq.
    injection Hpq as _ _ _ _ E5. destruct p; discriminate E5.
Defined.

(** X2.  The rows are never more than the library holds, and when the
    ids of the library are distinct so are the ids of the rows (the
    keys of the cards). *)
Theorem rows_keep_unique_ids (H : Host)
  (initialLibrary : list LibraryItem) (st : FilterState) :
  (List.length (filteredLibrary initialLibrary st)
   <= List.length initialLibrary)%nat
  /\ (NoDup (map id initialLibrary) ->
      NoDup (map id (filteredLibrary initialLibrary st))).
Proof.
  rewrite filteredLibrary_sort_filter. split.
  - rewrite sort_length. apply filter_length_le.
  - intros Hnd.
    apply (Permutation_NoDup
             (Permutation_map id (sort_perm _ (filter (passes st)
                                                 initialLibrary)))).
    now apply distinct_keys_filter.
Qed.

Lemma rows_keep_unique_ids_witness :
  NoDup (map id (filteredLibrary (H := example_host) library3 rockState)).
Proof.
  apply (proj2 (rows_keep_unique_ids example_host library3 rockState)).
  vm_compute. repeat constructor; simpl; intuition discriminate.
Defined.

(** X3.  Changing only the sort key reorders the rows and neither adds
    nor drops one. *)
Theorem sort_key_only_reorders (H : Host)
  (initialLibrary : list LibraryItem) (st1 st2 : FilterState) :
  searchQuery st1 = searchQuery st2 ->
  genreFilter st1 = genreFilter st2 ->
  sourceFilter st1 = sourceFilter st2 ->
  Permutation (filteredLibrary initialLibrary st1)
              (filteredLibrary initialLibrary st2).
Proof.
  intros Eq Eg Es. rewrite !filteredLibrary_sort_filter.
  assert (Ep : filter (passes st1) initialLibrary
               = filter (passes st2) initialLibrary).
  { apply filter_ext. intros x. unfold passes. now rewrite Eq, Eg, Es. }
  rewrite Ep. rewrite <- !sort_perm. reflexivity.
Qed.

Lemma sort_key_only_reorders_witness :
  Permutation
    (filteredLibrary (H := example_host) library3 initialState)
    (filteredLibrary (H := example_host) library3
       {| searchQuery := ""; genreFilter := "all";
          sourceFilter := "all"; sortBy := Title |}).
Proof.
  apply sort_key_only_reorders; reflexivity.
Defined.

(** X4.  Under the keys [Plays] and [Likes] the rows run from the
    highest count to the lowest: every row has at least the count of
    every row below it. *)
Theorem rows_descending_by_count (H : Host)
  (initialLibrary : list LibraryItem) (st : FilterState) :
  (sortBy st = Plays ->
   StronglySorted (fun a b => play_count b <= play_count a)
                  (filteredLibrary initialLibrary st))
  /\ (sortBy st = Likes ->
      StronglySorted (fun a b => like_count b <= like_count a)
                     (filteredLibrary initialLibrary st)).
Proof.
  rewrite filteredLibrary_sort_filter.
  split; intros ->;
    match goal with
    | |- StronglySorted _ (Array_sort (compareItems ?k) ?l) =>
        assert (Hs := sort_strongly_sorted (compareItems k) l
                        (compareItems_consistent_on k l I));
        induction Hs as [|x m Hm IH Hx]; constructor;
          [exact IH|];
        apply Forall_forall; intros y Hy;
        rewrite Forall_forall in Hx; specialize (Hx y Hy);
        unfold ordered, SortCompare in Hx; simpl in Hx;
        rewrite !or_num_0 in Hx; lia
    end.
Qed.

Lemma rows_descending_by_count_witness :
  StronglySorted (fun a b => play_count b <= play_count a)
    (filteredLibrary (H := example_host) library3 rockState).
Proof.
  apply (proj1 (rows_descending_by_count example_host library3
                  rockState)).
  reflexivity.
Defined.

(** X5.  When the comparator of the chosen key is consistent on the
    library (always for plays and likes; for title and artist when the
    host's [localeCompare] is a consistent comparator; for recent when
    every [last_added] is a valid date), each row may stand before the
    next under that key: titles and artist names do not decrease, and
    under [Recent] a row with a valid date is not older than a next row
    with a valid date.  Otherwise ECMAScript leaves the order to the
    engine. *)
Theorem rows_follow_the_key (H : Host)
  (initialLibrary : list LibraryItem) (st : FilterState) :
  key_consistent H (sortBy st) initialLibrary ->
  Sorted (ordered (compareItems (sortBy st)))
         (filteredLibrary initialLibrary st)
  /\ (sortBy st = Title ->
      Sorted (fun a b => localeCompare (title a) (title b) <= 0)
             (filteredLibrary initialLibrary st))
  /\ (sortBy st = Artist ->
      Sorted (fun a b =>
                localeCompare (artist_name a) (artist_name b) <= 0)
             (filteredLibrary initialLibrary st))
  /\ (sortBy st = Recent ->
      Sorted (fun a b =>
                forall ta tb,
                  Date_getTime (last_added a) = Some ta ->
                  Date_getTime (last_added b) = Some tb -> tb <= ta)
             (filteredLibrary initialLibrary st)).
Proof.
  intros Hk.
  assert (Hs : Sorted (ordered (compareItems (sortBy st)))
                      (filteredLibrary initialLibrary st)).
  { rewrite filteredLibrary_sort_filter.
    apply StronglySorted_Sorted, sort_strongly_sorted.
    apply compareItems_consistent_on.
    apply key_consistent_incl with initialLibrary; [|exact Hk].
    intros x Hx. now apply filter_In in Hx. }
  split; [exact Hs|].
  repeat split; intros E; rewrite E in Hs;
    (induction Hs as [|x m Hm IH Hx]; constructor; [exact IH|];
     destruct Hx as [|y m' Hxy]; constructor;
     unfold ordered, SortCompare in Hxy; simpl in Hxy).
  - now rewrite !or_str_empty in Hxy.
  - now rewrite !or_str_empty in Hxy.
  - intros ta tb Ea Eb. rewrite Ea, Eb in Hxy. simpl in Hxy. lia.
Qed.

Lemma rows_follow_the_key_witness :
  Sorted (fun a b =>
            @localeCompare example_host (title a) (title b) <= 0)
    (filteredLibrary (H := example_host) library3
       {| searchQuery := ""; genreFilter := "all";
          sourceFilter := "all"; sortBy := Title |}).
Proof.
  apply (proj1 (proj2 (rows_follow_the_key example_host library3
                         {| searchQuery := ""; genreFilter := "all";
                            sourceFilter := "all"; sortBy := Title |}
                         LibraryClaims.example_host_consistent))).
  reflexivity.
Defined.

(** X6.  Filtering and sorting the rows once more with the same state
    gives the same rows, when the comparator of the chosen key is
    consistent on the library (always for plays and likes; for title
    and artist when the host's [localeCompare] is a consistent
    comparator; for recent when every [last_added] is a valid date). *)
Theorem refiltering_changes_nothing (H : Host)
  (initialLibrary : list LibraryItem) (st : FilterState) :
  key_consistent H (sortBy st) initialLibrary ->
  filteredLibrary (filteredLibrary initialLibrary st) st
  = filteredLibrary initialLibrary st.
Proof.
  intros Hk.
  rewrite (filteredLibrary_sort_filter (filteredLibrary _ _)).
  rewrite filter_all.
  - rewrite filteredLibrary_sort_filter.
    apply sort_idempotent, compareItems_consistent_on.
    apply key_consistent_incl with initialLibrary; [|exact Hk].
    intros x Hx. now apply filter_In in Hx.
  - intros x Hx. rewrite filteredLibrary_sort_filter in Hx.
    apply sort_In, filter_In in Hx. tauto.
Qed.

Lemma refiltering_changes_nothing_witness :
  filteredLibrary (H := example_host)
    (filteredLibrary (H := example_host) library3 rockState) rockState
  = filteredLibrary (H := example_host) library3 rockState.
Proof.
  apply (refiltering_changes_nothing example_host library3 rockState).
  exact I.
Defined.

Lemma In_firstn {A : Type} (n : nat) (l : list A) (x : A) :
  In x (firstn n l) -> In x l.
Proof.
  intros Hin. rewrite <- (firstn_skipn n l). apply in_or_app. now left.
Qed.

Lemma matchesGenre_token (item : LibraryItem) (raw tok : string) :
  genre item = Some raw -> In tok (split "," raw) ->
  matchesGenre (trim tok) item = true.
Proof.
  intros E Hin. unfold matchesGenre. rewrite E. simpl.
  apply includes_iff, toLowerCase_Substring.
  apply Substring_trans with tok;
    [apply trim_Substring | now apply split_Substring with ","%char].
Qed.

Lemma matchesSource_token (item : LibraryItem) (raw tok : string) :
  sources item = Some raw -> In tok (split "," raw) ->
  matchesSource (trim tok) item = true.
Proof.
  intros E Hin. unfold matchesSource. rewrite E. simpl.
  apply includes_iff, toLowerCase_Substring.
  apply Substring_trans with tok;
    [apply trim_Substring | now apply split_Substring with ","%char].
Qed.

(** X7.  Every entry of the genre vocabulary, chosen in the genre select
    with no query and every source, shows at least one row, and so does
    every entry of the source vocabulary chosen in the source select:
    no option of the two selects leads to an empty list. *)
Theorem offered_options_match_something (H : Host)
  (initialLibrary : list LibraryItem) (k : SortKey) :
  (forall g, In g (allGenres initialLibrary) ->
     exists item,
       In item (filteredLibrary initialLibrary
                  {| searchQuery := ""; genreFilter := g;
                     sourceFilter := "all"; sortBy := k |}))
  /\ (forall s, In s (allSources initialLibrary) ->
     exists item,
       In item (filteredLibrary initialLibrary
                  {| searchQuery := ""; genreFilter := "all";
                     sourceFilter := s; sortBy := k |}))
  /\ (initialLibrary <> [] ->
      forall g,
        In g (genreOptions (LibraryPageClient initialLibrary
                              initialState)) ->
        filteredLibrary initialLibrary
          {| searchQuery := ""; genreFilter := g;
             sourceFilter := "all"; sortBy := k |} <> []).
Proof.
  assert (Hg : forall g, In g (allGenres initialLibrary) ->
     exists item,
       In item (filteredLibrary initialLibrary
                  {| searchQuery := ""; genreFilter := g;
                     sourceFilter := "all"; sortBy := k |})).
  { intros g Hin. unfold allGenres, genreSet in Hin.
    apply sort_In, vocabulary_In in Hin.
    destruct Hin as [[] | [item [raw [tok [Hi [E [Ht ->]]]]]]].
    exists item. apply filteredLibrary_In. simpl.
    repeat split; auto. right. now apply matchesGenre_token with raw. }
  split; [exact Hg|]. split.
  - intros s Hin. unfold allSources, sourceSet in Hin.
    apply sort_In, vocabulary_In in Hin.
    destruct Hin as [[] | [item [raw [tok [Hi [E [Ht ->]]]]]]].
    exists item. apply filteredLibrary_In. simpl.
    repeat split; auto. right. now apply matchesSource_token with raw.
  - intros Hne g [<- | Hin].
    + destruct initialLibrary as [|x l]; [contradiction|].
      intros E. apply (f_equal (@List.length _)) in E.
      unfold filteredLibrary in E. simpl truthy in E.
      cbn [negb String.eqb Ascii.eqb Bool.eqb genreFilter sourceFilter
           searchQuery sortBy] in E.
      rewrite sort_length in E. discriminate.
    + apply In_firstn, Hg in Hin. destruct Hin as [item Hitem].
      intros E. rewrite E in Hitem. exact Hitem.
Qed.

Lemma offered_options_match_something_witness :
  filteredLibrary (H := example_host) library3
    {| searchQuery := ""; genreFilter := "Jazz";
       sourceFilter := "all"; sortBy := Recent |} <> [].
Proof.
  apply (proj2 (proj2 (offered_options_match_something example_host
                         library3 Recent))).
  - discriminate.
  - vm_compute. right. left. reflexivity.
Defined.

(** X8.  With no filter in force every item of the library is shown and
    the result line is hidden; with a filter in force the result line
    gives the number of rows, at most the size of the library, and the
    size of the library. *)
Theorem result_line_and_full_list (H : Host)
  (initialLibrary : list LibraryItem) (st : FilterState) :
  (hasActiveFilters st = false ->
   Permutation initialLibrary
               (rows (LibraryPageClient initialLibrary st))
   /\ resultCount (LibraryPageClient initialLibrary st) = None
   /\ showClear (LibraryPageClient initialLibrary st) = false)
  /\ (hasActiveFilters st = true ->
      exists n,
        resultCount (LibraryPageClient initialLibrary st)
        = Some (n, List.length initialLibrary)
        /\ n = List.length (rows (LibraryPageClient initialLibrary st))
        /\ (n <= List.length initialLibrary)%nat
        /\ showClear (LibraryPageClient initialLibrary st) = true).
Proof.
  split; intros Hact.
  - simpl. rewrite Hact. repeat split; try reflexivity.
    now apply filteredLibrary_unfiltered.
  - simpl. rewrite Hact. eexists. split; [reflexivity|].
    split; [reflexivity|]. split; [|reflexivity].
    apply filteredLibrary_length_le.
Qed.

Lemma result_line_and_full_list_witness :
  resultCount (LibraryPageClient (H := example_host) library3 rockState)
  = Some (2%nat, 3%nat).
Proof.
  destruct (proj2 (result_line_and_full_list example_host library3
                     rockState) eq_refl) as [n [E [-> _]]].
  exact E.
Defined.

(** X9.  The grid says that the library is empty only when the library
    is empty and no filter is in force; with a filter in force an empty
    list, also of an empty library, is reported as no match; and rows
    are shown exactly when there is one. *)
Theorem empty_state_message (H : Host)
  (initialLibrary : list LibraryItem) (st : FilterState) :
  (forall headline hint,
      libraryGrid initialLibrary st = EmptyState headline hint ->
      filteredLibrary initialLibrary st = []
      /\ (headline = "Library is empty" ->
          initialLibrary = [] /\ hasActiveFilters st = false)
      /\ (hasActiveFilters st = true ->
          headline = "No songs match your filters"))
  /\ (forall l, libraryGrid initialLibrary st = Rows l ->
                l = filteredLibrary initialLibrary st /\ l <> [])
  /\ (initialLibrary = [] ->
      exists headline hint,
        libraryGrid initialLibrary st = EmptyState headline hint).
Proof.
  unfold libraryGrid. split; [|split].
  - intros headline hint.
    destruct (filteredLibrary initialLibrary st) as [|x l] eqn:E;
      simpl; [|discriminate].
    intros Hgrid. injection Hgrid as <- _. split; [reflexivity|].
    destruct (hasActiveFilters st) eqn:Hact.
    + split; [discriminate | reflexivity].
    + split; [|discriminate]. intros _. split; [|reflexivity].
      assert (Hperm := filteredLibrary_unfiltered initialLibrary st
                         Hact).
      rewrite E in Hperm. now apply Permutation_nil, Permutation_sym.
  - intros l.
    destruct (filteredLibrary initialLibrary st) as [|x m] eqn:E;
      simpl; [discriminate|].
    intros Hgrid. injection Hgrid as <-. split; [reflexivity|discriminate].
  - intros ->. rewrite filteredLibrary_nil. simpl.
    do 2 eexists. reflexivity.
Qed.

Lemma empty_state_message_witness :
  libraryGrid (H := example_host) [] rockState
  = EmptyState "No songs match your filters"
               "Try adjusting your filters".
Proof.
  destruct (proj2 (proj2 (empty_state_message example_host [] rockState))
              eq_refl) as [headline [hint E]].
  destruct (proj1 (empty_state_message example_host [] rockState)
              headline hint E) as [_ [_ Hm]].
  reflexivity.
Defined.

(** X10.  When no duration is negative, the header's minutes are below
    60 and hours and minutes together are the total duration cut down
    to the whole minute. *)
Theorem total_duration_hours_minutes
  (initialLibrary : list LibraryItem) :
  (forall i, In i initialLibrary ->
             0 <= duration_or_0 (duration_seconds i)) ->
  0 <= totalHours initialLibrary
  /\ 0 <= totalMins initialLibrary < 60
  /\ 3600 * totalHours initialLibrary + 60 * totalMins initialLibrary
     <= totalDuration initialLibrary
     < 3600 * totalHours initialLibrary + 60 * totalMins initialLibrary
       + 60.
Proof.
  intros Hpos.
  assert (Ht : 0 <= totalDuration initialLibrary).
  { unfold totalDuration. rewrite fold_left_sum. simpl.
    induction initialLibrary as [|x l IH]; simpl; [lia|].
    assert (Hx := Hpos x (or_introl eq_refl)).
    assert (Hl : 0 <= sumZ (fun i => or_null (duration_seconds i) 0) l).
    { apply IH. intros i Hi. apply Hpos. now right. }
    assert (Ex : or_null (duration_seconds x) 0
                 = duration_or_0 (duration_seconds x)).
    { destruct (duration_seconds x); simpl;
        [apply or_num_0 | reflexivity]. }
    lia. }
  unfold totalHours, totalMins.
  clear Hpos. revert Ht.
  generalize (totalDuration initialLibrary). intros T Ht.
  rewrite Z.rem_mod_nonneg by lia.
  assert (Hm := Z.mod_pos_bound T 3600 ltac:(lia)).
  assert (Hd := Z.div_mod T 3600 ltac:(lia)).
  assert (Hm' := Z.mod_pos_bound (T mod 3600) 60 ltac:(lia)).
  assert (Hd' := Z.div_mod (T mod 3600) 60 ltac:(lia)).
  assert (0 <= T / 3600) by (apply Z.div_pos; lia).
  assert (0 <= T mod 3600 / 60 < 60).
  { split; [apply Z.div_pos; lia|].
    apply Z.div_lt_upper_bound; lia. }
  lia.
Qed.

Lemma total_duration_hours_minutes_witness :
  0 <= totalMins library3 < 60.
Proof.
  apply (total_duration_hours_minutes library3).
  intros i [<- | [<- | [<- | []]]]; simpl; lia.
Defined.

Lemma fold_Set_add_length (l : list string) (s : list string) :
  (List.length (fold_left (fun acc x => Set_add String.eqb x acc) l s)
   <= List.length s + List.length l)%nat.
Proof.
  revert s; induction l as [|x l IH]; intros s; simpl; [lia|].
  specialize (IH (Set_add String.eqb x s)). unfold Set_add in *.
  destruct (Set_has String.eqb x s); [lia|].
  rewrite length_app in IH. simpl in IH. lia.
Qed.

(** X11.  The number of artists is at most the number of songs, and it
    is zero only for the empty library. *)
Theorem artists_at_most_songs (initialLibrary : list LibraryItem) :
  (uniqueArtists initialLibrary <= List.length initialLibrary)%nat
  /\ (uniqueArtists initialLibrary = 0%nat <-> initialLibrary = []).
Proof.
  unfold uniqueArtists, Set_of. split.
  - rewrite <- (length_map artist_name initialLibrary).
    apply (fold_Set_add_length (map artist_name initialLibrary) []).
  - split; [|now intros ->].
    destruct initialLibrary as [|x l]; [reflexivity|]. intros E.
    apply length_zero_iff_nil in E.
    assert (Hin : In (artist_name x)
                     (fold_left (fun s a => Set_add String.eqb a s)
                                (map artist_name (x :: l)) [])).
    { apply (fold_Set_add_In String.eqb String.eqb_eq (fun a => a)).
      right. exists (artist_name x). split; [now left | reflexivity]. }
    rewrite E in Hin. contradiction.
Qed.

(** X12.  The contributor count of a card is 0 when the field is
    missing and otherwise one more than the number of commas in it, so
    that a field that is present counts for at least one contributor,
    also when it is the empty string. *)
Theorem contributorCount_counts_commas (item : LibraryItem) :
  (contributors item = None -> contributorCount item = 0%nat)
  /\ (forall raw, contributors item = Some raw ->
        contributorCount item = S (count_unit "," raw))
  /\ (contributorCount item = 0%nat <-> contributors item = None).
Proof.
  unfold contributorCount.
  destruct (contributors item) as [raw|]; repeat split;
    try discriminate; try reflexivity.
  - intros raw' E. injection E as <-. apply split_length.
  - rewrite split_length. discriminate.
Qed.

Lemma contributorCount_counts_commas_witness :
  contributorCount song3 = 3%nat.
Proof.
  rewrite (proj1 (proj2 (contributorCount_counts_commas song3))
             "ann,bob,cyd" eq_refl).
  reflexivity.
Defined.

(** X13.  A card shows at most two genre chips; the dash stands in for
    them exactly when the genre field is missing; and every chip is an
    entry of the genre vocabulary of any library that holds the item. *)
Theorem genre_chips_of_a_card (H : Host) (item : LibraryItem) :
  (List.length (genreChips item) <= 2)%nat
  /\ (genreDash item = true <-> genre item = None)
  /\ (forall lib chip, In item lib -> In chip (genreChips item) ->
        In chip (allGenres lib)).
Proof.
  unfold genreChips, genreDash, card_genres. split; [|split].
  - rewrite length_map.
    destruct (genre item); [rewrite length_firstn | simpl]; lia.
  - destruct (genre item) as [raw|]; [|now split].
    split; [|discriminate].
    assert (Hne := split_nonempty "," raw).
    destruct (split "," raw) as [|a [|b l]]; simpl; congruence.
  - intros lib chip Hlib Hchip.
    destruct (genre item) as [raw|] eqn:E; [|contradiction].
    apply in_map_iff in Hchip. destruct Hchip as [tok [<- Htok]].
    apply In_firstn in Htok.
    unfold allGenres, genreSet. apply sort_In, vocabulary_In.
    right. now exists item, raw, tok.
Qed.

Lemma genre_chips_of_a_card_witness :
  genreChips song3 = ["Pop"; "Rock"]
  /\ In "Rock" (allGenres (H := example_host) library3).
Proof.
  split; [reflexivity|].
  apply (proj2 (proj2 (genre_chips_of_a_card example_host song3))
           library3 "Rock").
  - right. right. left. reflexivity.
  - right. left. reflexivity.
Defined.

(** X14.  A card shows at most two source badges and none exactly when
    the sources field is missing.  Each badge belongs to an entry of
    the source vocabulary: it is the entry of the table for that tag,
    or, for a tag outside the table, the grey badge labelled with the
    tag itself, unless the tag names a property every object inherits,
    in which case the lookup yields that property and no badge. *)
Theorem source_badges_of_a_card (H : Host) (item : LibraryItem) :
  (List.length (sourceBadges item) <= 2)%nat
  /\ (sourceBadges item = [] <-> sources item = None)
  /\ (forall lib r, In item lib -> In r (sourceBadges item) ->
        exists s,
          In s (allSources lib) /\ r = getSourceBadge s
          /\ match r with
             | IsBadge b =>
                 In (s, b) badges
                 \/ (b = {| color := "bg-zinc-500/20 text-zinc-400";
                            label := s |}
                     /\ ~ In s (map fst badges)
                     /\ ~ In s Object_prototype_keys)
             | Inherited key =>
                 key = s /\ In s Object_prototype_keys
                 /\ ~ In s (map fst badges)
             end).
Proof.
  unfold sourceBadges, card_sources. split; [|split].
  - rewrite length_map.
    destruct (sources item); [rewrite length_firstn | simpl]; lia.
  - destruct (sources item) as [raw|]; [|now split].
    split; [|discriminate].
    assert (Hne := split_nonempty "," raw).
    destruct (split "," raw) as [|a [|b l]]; simpl; congruence.
  - intros lib r Hlib Hr.
    destruct (sources item) as [raw|] eqn:E; [|contradiction].
    apply in_map_iff in Hr. destruct Hr as [tok [<- Htok]].
    apply In_firstn in Htok. exists (trim tok).
    split; [|split; [reflexivity|]].
    { unfold allSources, sourceSet. apply sort_In, vocabulary_In.
      right. now exists item, raw, tok. }
    generalize (trim tok) as s. clear. intros s.
    unfold getSourceBadge.
    assert (Hown : forall table,
               match own_property s table with
               | Some b => In (s, b) table
               | None => ~ In s (map fst table)
               end).
    { induction table as [|[k b] table IH]; simpl; [tauto|].
      destruct (String.eqb_spec s k) as [->|Hne]; [now left|].
      destruct (own_property s table); [now right|].
      intros [Hk|Hin]; [congruence | contradiction]. }
    specialize (Hown badges).
    destruct (own_property s badges) as [b|]; [now left|].
    destruct (Set_has String.eqb s Object_prototype_keys) eqn:Ep.
    + apply (Set_has_iff String.eqb String.eqb_eq) in Ep. tauto.
    + right. split; [reflexivity|]. split; [exact Hown|].
      intros Hin. apply (Set_has_iff String.eqb String.eqb_eq) in Hin.
      congruence.
Qed.

Lemma source_badges_of_a_card_witness :
  sourceBadges song3
  = [ IsBadge {| color := "bg-blue-500/20 text-blue-400";
                 label := "Request" |};
      IsBadge {| color := "bg-pink-500/20 text-pink-400";
                 label := "Liked" |} ]
  /\ exists s, In s (allSources (H := example_host) library3)
               /\ IsBadge {| color := "bg-pink-500/20 text-pink-400";
                             label := "Liked" |} = getSourceBadge s.
Proof.
  split; [reflexivity|].
  destruct (proj2 (proj2 (source_badges_of_a_card example_host song3)) library3
              (IsBadge {| color := "bg-pink-500/20 text-pink-400";
                          label := "Liked" |}))
    as [s [Hs [E _]]].
  - right. right. left. reflexivity.
  - right. left. reflexivity.
  - now exists s.
Defined.

Lemma includes_unit (c p : ascii) (s : string) :
  includes (String c s) (String p "") = false ->
  Ascii.eqb c p = false /\ includes s (String p "") = false.
Proof.
  cbn [includes startsWith]. rewrite orb_false_iff.
  intros [Hc Hs]. split; [|exact Hs].
  destruct s; simpl in Hc; rewrite andb_true_r in Hc;
    now rewrite Ascii.eqb_sym.
Qed.

(** X15.  The text of a source option is the source with its first
    underscore turned into a space: a source without an underscore is
    shown as it is, and underscores after the first are kept. *)
Theorem sourceOptionLabel_first_underscore :
  (forall s, includes s "_" = false -> sourceOptionLabel s = s)
  /\ (forall a b, includes a "_" = false ->
        sourceOptionLabel (a ++ "_" ++ b) = a ++ " " ++ b)
  /\ (forall s, String.length (sourceOptionLabel s) = String.length s).
Proof.
  unfold sourceOptionLabel. split; [|split].
  - induction s as [|c s IH]; intros Hs; simpl; [reflexivity|].
    apply includes_unit in Hs. destruct Hs as [-> Hs]. now rewrite IH.
  - intros a b.
    change (includes a "_" = false ->
            replace "_" " " (a ++ String "_" b) = a ++ String " " b).
    induction a as [|c a IH]; intros Ha; simpl; [reflexivity|].
    apply includes_unit in Ha. destruct Ha as [-> Ha]. now rewrite IH.
  - induction s as [|c s IH]; simpl; [reflexivity|].
    destruct (Ascii.eqb c "_"); simpl; [reflexivity | now rewrite IH].
Qed.

Lemma sourceOptionLabel_first_underscore_witness :
  sourceOptionLabel "spotify_import" = "spotify import"
  /\ sourceOptionLabel "a_b_c" = "a b_c".
Proof.
  split.
  - apply (proj1 (proj2 sourceOptionLabel_first_underscore)
             "spotify" "import"). reflexivity.
  - apply (proj1 (proj2 sourceOptionLabel_first_underscore)
             "a" "b_c"). reflexivity.
Defined.

(** X17.  The server page never fails: when [getLibrary] resolves, the
    client gets its rows; when it rejects, one line is logged and the
    client gets the empty library, for which every filter state shows
    no row and the header counts nothing. *)
Theorem LibraryPage_load_failure (H : Host)
  (getLibrary : Z -> string + list LibraryItem) :
  (forall rows, getLibrary 500 = inr rows ->
                LibraryPage getLibrary = (rows, []))
  /\ (forall err, getLibrary 500 = inl err ->
        fst (LibraryPage getLibrary) = []
        /\ List.length (snd (LibraryPage getLibrary)) = 1%nat
        /\ forall st,
             rows (LibraryPageClient (fst (LibraryPage getLibrary)) st)
             = []
             /\ stats (LibraryPageClient (fst (LibraryPage getLibrary))
                                         st)
                = {| songs := 0; artists := 0; genres := 0; plays := 0;
                     likes := 0; hours := 0; mins := 0 |}
             /\ exists headline hint,
                  libraryGrid (fst (LibraryPage getLibrary)) st
                  = EmptyState headline hint).
Proof.
  unfold LibraryPage. split.
  - intros rows ->. reflexivity.
  - intros err ->. simpl. repeat split.
    + apply filteredLibrary_nil.
    + unfold libraryGrid. rewrite filteredLibrary_nil. simpl.
      do 2 eexists. reflexivity.
Qed.

Lemma LibraryPage_load_failure_witness :
  fst (LibraryPage (fun _ => inl "connection refused")) = [].
Proof.
  apply (proj2 (LibraryPage_load_failure example_host
                  (fun _ => inl "connection refused"))
           "connection refused" eq_refl).
Defined.

Lemma to_int_proper (z : Z) :
  Z.to_int z <> Decimal.Pos Decimal.Nil
  /\ Z.to_int z <> Decimal.Neg Decimal.Nil.
Proof.
  destruct z as [|p|p]; simpl; split; try discriminate;
    intros E; injection E as E;
    now apply DecimalPos.Unsigned.to_uint_nonnil in E.
Qed.

Lemma toString_parse (z : Z) :
  NilZero.int_of_string (toString z) = Some (Z.to_int z).
Proof.
  destruct (to_int_proper z). now apply NilZero.isi.
Qed.

Lemma toString_inj (a b : Z) : toString a = toString b -> a = b.
Proof.
  intros E. apply (f_equal NilZero.int_of_string) in E.
  rewrite !toString_parse in E. injection E as E.
  now apply DecimalZ.to_int_inj.
Qed.

Lemma append_length (a b : string) :
  String.length (a ++ b) = (String.length a + String.length b)%nat.
Proof.
  induction a as [|c a IH]; simpl; [reflexivity | now rewrite IH].
Qed.

Lemma append_inj (a b x y : string) :
  String.length x = String.length y ->
  a ++ x = b ++ y -> a = b /\ x = y.
Proof.
  revert b; induction a as [|c a IH]; intros [|d b] Hl E; simpl in E.
  - now split.
  - apply (f_equal String.length) in E. simpl in E.
    rewrite append_length in E. lia.
  - apply (f_equal String.length) in E. simpl in E.
    rewrite append_length in E. lia.
  - injection E as -> E. destruct (IH b Hl E) as [-> ->]. now split.
Qed.

Lemma digit_inj (a b : Z) :
  0 <= a < 10 -> 0 <= b < 10 -> digit a = digit b -> a = b.
Proof.
  intros Ha Hb E. unfold digit in E.
  apply (f_equal N_of_ascii) in E.
  rewrite !N_ascii_embedding in E by lia. lia.
Qed.

Lemma two_digits_inj (r s : Z) :
  0 <= r < 60 -> 0 <= s < 60 -> two_digits r = two_digits s -> r = s.
Proof.
  intros Hr Hs E. unfold two_digits in E. injection E as E1 E2.
  assert (r / 10 = s / 10).
  { apply digit_inj.
    - split; [apply Z.div_pos; lia | apply Z.div_lt_upper_bound; lia].
    - split; [apply Z.div_pos; lia | apply Z.div_lt_upper_bound; lia].
    - exact E1. }
  assert (r mod 10 = s mod 10).
  { apply digit_inj; try (apply Z.mod_pos_bound; lia).
    exact E2. }
  rewrite (Z.div_mod r 10), (Z.div_mod s 10) by lia. congruence.
Qed.

Lemma formatDuration_positive (n : Z) :
  0 < n ->
  formatDuration (Some n)
  = toString (n / 60) ++ ":" ++ two_digits (n mod 60).
Proof.
  intros Hn. unfold formatDuration.
  destruct (Z.eqb_spec n 0) as [E|_]; [lia|].
  rewrite Z.rem_mod_nonneg by lia. do 2 f_equal.
  assert (Hr : 0 <= n mod 60 < 60) by (apply Z.mod_pos_bound; lia).
  revert Hr. generalize (n mod 60). intros r Hr.
  assert (Er : r = Z.of_nat (Z.to_nat r)) by lia.
  assert (Hk : (Z.to_nat r < 60)%nat) by lia.
  rewrite Er. revert Hk. generalize (Z.to_nat r). intros k Hk.
  do 60 (destruct k as [|k]; [reflexivity|]). lia.
Qed.

(** X16.  Two different positive durations are never shown alike, and a
    positive duration is never shown as the placeholder. *)
Theorem formatDuration_tells_durations_apart (n m : Z) :
  0 < n -> 0 < m ->
  (formatDuration (Some n) = formatDuration (Some m) -> n = m)
  /\ formatDuration (Some n) <> formatDuration None.
Proof.
  intros Hn Hm. rewrite !formatDuration_positive by assumption. split.
  - intros E.
    remember (two_digits (n mod 60)) as dn eqn:Edn.
    remember (two_digits (m mod 60)) as dm eqn:Edm.
    apply append_inj in E; [|now rewrite Edn, Edm].
    destruct E as [Eq Er]. apply toString_inj in Eq.
    injection Er as Er. subst dn dm.
    apply two_digits_inj in Er; try (apply Z.mod_pos_bound; lia).
    rewrite (Z.div_mod n 60), (Z.div_mod m 60) by lia. congruence.
  - simpl. intros E.
    change "--:--" with ("--" ++ ":" ++ "--") in E.
    apply append_inj in E; [|reflexivity]. destruct E as [E _].
    apply (f_equal NilZero.int_of_string) in E.
    rewrite toString_parse in E. discriminate.
Qed.

Lemma formatDuration_tells_durations_apart_witness :
  formatDuration (Some 125) <> formatDuration None.
Proof.
  apply (formatDuration_tells_durations_apart 125 61); lia.
Defined.

End LibraryMore.

(** * Further properties of the Services page *)

Module ServicesMoreFacts.
Import JS Services ServicesView MoreProps SetFacts ServicesFacts.

Lemma Set_has_add (i j : string) (s : list string) :
  Set_has String.eqb j (Set_add String.eqb i s)
  = String.eqb j i || Set_has String.eqb j s.
Proof.
  unfold Set_add. destruct (Set_has String.eqb i s) eqn:E.
  - destruct (String.eqb_spec j i) as [->|_]; [now rewrite E|reflexivity].
  - unfold Set_has. rewrite existsb_app. simpl.
    now rewrite orb_false_r, orb_comm.
Qed.

Lemma Set_has_delete (i j : string) (s : list string) :
  Set_has String.eqb j (Set_delete String.eqb i s)
  = negb (String.eqb i j) && Set_has String.eqb j s.
Proof.
  unfold Set_has, Set_delete. induction s as [|x s IH]; simpl.
  - now rewrite andb_false_r.
  - destruct (String.eqb_spec i x) as [->|Hix]; simpl.
    + rewrite IH. destruct (String.eqb_spec j x) as [->|Hjx]; simpl.
      * now rewrite String.eqb_refl.
      * reflexivity.
    + rewrite IH. destruct (String.eqb_spec j x) as [->|Hjx]; simpl.
      * apply String.eqb_neq in Hix. now rewrite Hix.
      * reflexivity.
Qed.

Lemma Set_delete_add (i : string) (s : list string) :
  Set_has String.eqb i s = false ->
  Set_delete String.eqb i (Set_add String.eqb i s) = s.
Proof.
  intros Hi. unfold Set_add. rewrite Hi. unfold Set_delete.
  rewrite filter_app. simpl. rewrite String.eqb_refl. simpl.
  rewrite app_nil_r. unfold Set_has in Hi.
  induction s as [|x s IH]; simpl in *; [reflexivity|].
  apply orb_false_iff in Hi. destruct Hi as [Hx Hs].
  rewrite Hx. simpl. now rewrite IH.
Qed.

(** What a poll leaves behind, in full. *)
Lemma fetchServices_run (w : World) (st : PageState) (n : nat) :
  exists (sv : list Service) (err : option string) (m : nat)
         (st' : PageState) (tr : list Event),
    run fetchServices w (st, n)
    = (inr tt,
       ({| services := sv; restartingServices := restartingServices st';
           loading := false; error := err |}, m), tr)
    /\ (st' = others w n st \/ st' = others w (S n) (others w n st))
    /\ requests tr = [("GET", BOT_API_URL ++ "/services")]
    /\ (forall a, In a (actions tr) ->
          a = setServices sv \/ a = setError err \/ a = setLoading false)
    /\ ((exists r o e, net w n "GET" (BOT_API_URL ++ "/services")
                       = Resolved r
                       /\ ok r = true /\ resp_body r = JsonValue o e
                       /\ sv = or_list o [] /\ err = None)
        \/ (sv = fallbackServices
            /\ err = Some "Failed to connect to bot API"
            /\ forall r o e, net w n "GET" (BOT_API_URL ++ "/services")
                             = Resolved r ->
                             ok r = true ->
                             resp_body r <> JsonValue o e)).
Proof.
  unfold fetchServices. simpl.
  destruct (net w n "GET" "/api/bot/services") as [e|r] eqn:E; simpl.
  - do 5 eexists. split; [reflexivity|]. split; [now left|].
    split; [reflexivity|]. split.
    + simpl. intuition.
    + right. repeat split. intros r o e' Hr. discriminate.
  - destruct (ok r) eqn:Hok; simpl.
    + destruct (resp_body r) as [e| |o e] eqn:Hb; simpl;
        do 5 eexists; (split; [reflexivity|]); (split; [now right|]);
        (split; [reflexivity|]); (split; [simpl; intuition|]).
      * right. repeat split. intros r' o e' Hr _ Hb'.
        injection Hr as <-. congruence.
      * right. repeat split. intros r' o e' Hr _ Hb'.
        injection Hr as <-. congruence.
      * left. exists r, o, e. repeat split; assumption.
    + do 5 eexists. split; [reflexivity|]. split; [now left|].
      split; [reflexivity|]. split.
      * simpl. intuition.
      * right. repeat split. intros r' o e' Hr Hok'.
        injection Hr as <-. congruence.
Qed.

(** The state [handleRestart] ends in: the id removed from the state
    reached either by the poll, when the request was accepted, or by
    the first effect alone. *)
Lemma handleRestart_final (w : World) (st : PageState) (n : nat)
  (serviceId : string) :
  let url := BOT_API_URL ++ "/services/" ++ serviceId ++ "/restart" in
  let st1 := apply_action (addRestarting serviceId) st in
  exists mid : PageState,
    final (run (handleRestart serviceId) w (st, n))
    = apply_action (deleteRestarting serviceId) mid
    /\ (((exists r, net w n "POST" url = Resolved r /\ ok r = true)
         /\ mid = final (run fetchServices w
                           (others w (S n) (others w n st1), S (S n))))
        \/ ((forall r, net w n "POST" url = Resolved r -> ok r = false)
            /\ (mid = others w n st1
                \/ mid = others w (S n) (others w n st1)))).
Proof.
  intros url st1. subst url st1. unfold handleRestart.
  remember (BOT_API_URL ++ "/services/" ++ serviceId ++ "/restart")
    as url eqn:Eurl.
  remember fetchServices as poll eqn:Epoll. simpl.
  destruct (net w n "POST" url) as [e|r] eqn:E; simpl.
  - eexists. split; [reflexivity|]. right.
    split; [intros r Hr; discriminate | now left].
  - destruct (ok r) eqn:Hok; simpl.
    + rewrite run_try_finally, run_try_catch.
      destruct (fetchServices_total w
                  (others w (S n)
                     (others w n (apply_action (addRestarting serviceId)
                                               st)), S (S n)))
        as [Hres _].
      rewrite <- Epoll in Hres. simpl in Hres.
      destruct (run poll w _) as [[res [st' n']] tr0] eqn:Erun.
      unfold result in Hres. simpl in Hres. subst res. simpl.
      exists st'. split; [reflexivity|]. left.
      split; [now exists r | reflexivity].
    + destruct (resp_body r) as [e| |sv ev]; simpl;
        (eexists; split; [reflexivity|]; right;
         split; [intros r0 Hr0; injection Hr0 as <-; exact Hok
                | now right]).
Qed.

Lemma fetchServices_writes (w : World) (st : PageState) (n : nat)
  (a : Action) :
  In a (actions (trace (run fetchServices w (st, n)))) ->
  (exists l, a = setServices l) \/ (exists e, a = setError e)
  \/ a = setLoading false.
Proof.
  destruct (fetchServices_run w st n)
    as [sv [err [m [st' [tr [-> [_ [_ [Hact _]]]]]]]]].
  unfold trace. simpl. intros Ha.
  destruct (Hact a Ha) as [-> | [-> | ->]]; eauto.
Qed.

Lemma fetchServices_keeps_set (w : World) (st : PageState) (n : nat) :
  keeps_restarting w ->
  restartingServices (final (run fetchServices w (st, n)))
  = restartingServices st.
Proof.
  intros Hk.
  destruct (fetchServices_run w st n)
    as [sv [err [m [st' [tr [-> [Hst' _]]]]]]].
  unfold final. simpl. destruct Hst' as [-> | ->]; now rewrite ?Hk.
Qed.

(** With no other task at work, what a poll writes does not depend on
    the state it starts from. *)
Lemma fetchServices_final_alone (w : World) (n : nat)
  (st st' : PageState) :
  alone w ->
  final (run fetchServices w (st', n))
  = {| services := services (final (run fetchServices w (st, n)));
       restartingServices := restartingServices st';
       loading := false;
       error := error (final (run fetchServices w (st, n))) |}.
Proof.
  intros Hw. unfold fetchServices. simpl.
  destruct (net w n "GET" "/api/bot/services") as [e|r]; simpl.
  - now rewrite !Hw.
  - destruct (ok r); simpl; [|now rewrite !Hw].
    destruct (resp_body r); simpl; now rewrite !Hw.
Qed.

(** The state setters [handleRestart] calls: the id is added first and
    removed last, and in between come those of the poll, if any. *)
Lemma handleRestart_actions (w : World) (st : PageState) (n : nat)
  (serviceId : string) :
  exists between : list Action,
    actions (trace (run (handleRestart serviceId) w (st, n)))
    = (addRestarting serviceId :: between
       ++ [deleteRestarting serviceId])%list
    /\ (between = []
        \/ exists c, between = actions (trace (run fetchServices w c))).
Proof.
  unfold handleRestart.
  remember (BOT_API_URL ++ "/services/" ++ serviceId ++ "/restart")
    as url eqn:Eurl.
  remember fetchServices as poll eqn:Epoll. simpl.
  destruct (net w n "POST" url) as [e|r] eqn:E; simpl.
  - exists []. split; [reflexivity | now left].
  - destruct (ok r) eqn:Hok; simpl.
    + rewrite run_try_finally, run_try_catch.
      destruct (fetchServices_total w
                  (others w (S n)
                     (others w n (apply_action (addRestarting serviceId)
                                               st)), S (S n)))
        as [Hres _].
      rewrite <- Epoll in Hres. simpl in Hres.
      destruct (run poll w _) as [[res [st' n']] tr0] eqn:Erun.
      unfold result in Hres. simpl in Hres. subst res. simpl.
      exists (actions tr0). split.
      * unfold actions. now rewrite flat_map_app.
      * right. eexists. now rewrite Erun.
    + destruct (resp_body r) as [e| |sv ev]; simpl;
        (exists []; split; [reflexivity | now left]).
Qed.

End ServicesMoreFacts.

Module ServicesMore.
Import JS Services ServicesView MoreProps SetFacts ServicesFacts.
Import ServicesMoreFacts Examples MoreExamples.

(** X18.  A poll never throws, sends exactly one request, the GET for
    the service list, and always ends with [loading] false.  It ends
    without an error exactly when the answer is in 200-299 with a body
    that is a JSON value other than [null], and then the list is the
    [services] of the body; in every other case the error is set and
    the list is the fallback, so that the banner is never shown over a
    list the server sent. *)
Theorem fetchServices_outcomes (w : World) (st : PageState) (n : nat) :
  let polled := run fetchServices w (st, n) in
  result polled = inr tt
  /\ loading (final polled) = false
  /\ requests (trace polled) = [("GET", BOT_API_URL ++ "/services")]
  /\ (errorBanner (final polled) = None <->
      exists r o e, net w n "GET" (BOT_API_URL ++ "/services")
                    = Resolved r
                    /\ ok r = true /\ resp_body r = JsonValue o e)
  /\ (forall r o e,
        net w n "GET" (BOT_API_URL ++ "/services") = Resolved r ->
        ok r = true -> resp_body r = JsonValue o e ->
        services (final polled) = or_list o [])
  /\ (errorBanner (final polled) <> None ->
      services (final polled) = fallbackServices
      /\ errorBanner (final polled)
         = Some "Failed to connect to bot API").
Proof.
  intros polled. subst polled.
  destruct (fetchServices_run w st n)
    as [sv [err [m [st' [tr [-> [_ [Hreq [_ Hcase]]]]]]]]].
  unfold result, final, trace, errorBanner. simpl.
  split; [reflexivity|]. split; [reflexivity|]. split; [exact Hreq|].
  destruct Hcase as [[r [o [e [Hr [Hok [Hb [-> ->]]]]]]]
                    | [-> [-> Hnot]]].
  - split; [split; [intros _; now exists r, o, e | reflexivity]|].
    split; [|intros Hne; now contradiction Hne].
    intros r' o' e' Hr' _ Hb'.
    assert (Er := eq_trans (eq_sym Hr) Hr').
    injection Er as <-. congruence.
  - simpl. split.
    + split; [discriminate|].
      intros [r [o [e [Hr [Hok Hb]]]]].
      now contradiction (Hnot r o e Hr Hok).
    + split; [|now intros _].
      intros r o e Hr Hok Hb. now contradiction (Hnot r o e Hr Hok).
Qed.

(** X19.  An answer in 200-299 whose body is not JSON, or is [null], is
    handled as a failure: fallback list and error.  An answer in
    200-299 whose body has no [services] property empties the list
    and clears the error. *)
Theorem fetchServices_unusable_body (w : World) (st : PageState)
  (n : nat) (r : Response) :
  net w n "GET" (BOT_API_URL ++ "/services") = Resolved r ->
  ok r = true ->
  ((resp_body r = JsonNull \/ exists e, resp_body r = JsonReject e) ->
   services (final (run fetchServices w (st, n))) = fallbackServices
   /\ error (final (run fetchServices w (st, n)))
      = Some "Failed to connect to bot API")
  /\ (forall e, resp_body r = JsonValue None e ->
      services (final (run fetchServices w (st, n))) = []
      /\ error (final (run fetchServices w (st, n))) = None).
Proof.
  intros Hr Hok. unfold fetchServices. simpl in *. rewrite Hr. simpl.
  rewrite Hok. simpl. split.
  - intros [-> | [e ->]]; simpl; now split.
  - intros e ->. simpl. now split.
Qed.

Lemma fetchServices_unusable_body_witness :
  services (final (run fetchServices world_200_garbage (initialPage, O)))
  = fallbackServices
  /\ services (final (run fetchServices world_200_empty
                         (page_idle, O))) = [].
Proof.
  split.
  - apply (proj1 (fetchServices_unusable_body world_200_garbage
                    initialPage O _ eq_refl eq_refl)).
    right. now exists "SyntaxError".
  - apply (proj2 (fetchServices_unusable_body world_200_empty
                    page_idle O _ eq_refl eq_refl) None).
    reflexivity.
Defined.

(** X20.  A poll writes the service list, the error and [loading] and
    nothing else: it calls no setter of the restarting set, it never
    sets [loading] to true, and when the other tasks leave the
    restarting set alone the set is after the poll what it was
    before. *)
Theorem fetchServices_leaves_restarting_set (w : World)
  (st : PageState) (n : nat) :
  (forall a, In a (actions (trace (run fetchServices w (st, n)))) ->
     (exists l, a = setServices l) \/ (exists e, a = setError e)
     \/ a = setLoading false)
  /\ (keeps_restarting w ->
      restartingServices (final (run fetchServices w (st, n)))
      = restartingServices st).
Proof.
  split; [apply fetchServices_writes | apply fetchServices_keeps_set].
Qed.

Lemma fetchServices_leaves_restarting_set_witness :
  restartingServices (final (run fetchServices world_500
                               (page_restarting, O)))
  = ["bot"].
Proof.
  apply (proj2 (fetchServices_leaves_restarting_set world_500
                  page_restarting O)).
  intros n st. reflexivity.
Defined.

(** X21.  A restart whose request fails leaves the page as it was: with
    no other task at work and the id not in the restarting set before,
    the state after [handleRestart] is the state before it; no error
    is raised on the page. *)
Theorem failed_restart_changes_nothing (w : World) (st : PageState)
  (n : nat) (serviceId : string) :
  alone w ->
  Set_has String.eqb serviceId (restartingServices st) = false ->
  (forall r, net w n "POST" (BOT_API_URL ++ "/services/" ++ serviceId
                             ++ "/restart") = Resolved r ->
             ok r = false) ->
  final (run (handleRestart serviceId) w (st, n)) = st.
Proof.
  intros Hw Hset Hfail.
  destruct (handleRestart_final w st n serviceId)
    as [mid [-> [[[r [Hr Hok]] _] | [_ Hmid]]]].
  - rewrite (Hfail r Hr) in Hok. discriminate.
  - assert (E : mid = apply_action (addRestarting serviceId) st).
    { destruct Hmid as [-> | ->]; now rewrite !Hw. }
    rewrite E. destruct st as [sv rs ld er]. simpl in *.
    now rewrite Set_delete_add.
Qed.

Lemma failed_restart_changes_nothing_witness :
  final (run (handleRestart "bot") world_500 (page_idle, O)) = page_idle.
Proof.
  apply failed_restart_changes_nothing.
  - intros n st. reflexivity.
  - reflexivity.
  - intros r Hr. injection Hr as <-. reflexivity.
Defined.

(** X22.  A restart of one service does not disturb the restarts of the
    others: when the other tasks leave the restarting set alone, every
    other id is in the set after [handleRestart] exactly if it was
    before, and if the id itself was not in the set the set is what it
    was. *)
Theorem restart_leaves_other_ids (w : World) (st : PageState) (n : nat)
  (serviceId : string) :
  keeps_restarting w ->
  (forall j, j <> serviceId ->
     Set_has String.eqb j
       (restartingServices
          (final (run (handleRestart serviceId) w (st, n))))
     = Set_has String.eqb j (restartingServices st))
  /\ (Set_has String.eqb serviceId (restartingServices st) = false ->
      restartingServices
        (final (run (handleRestart serviceId) w (st, n)))
      = restartingServices st).
Proof.
  intros Hk.
  destruct (handleRestart_final w st n serviceId) as [mid [-> Hmid]].
  assert (E : restartingServices mid
              = Set_add String.eqb serviceId (restartingServices st)).
  { destruct Hmid as [[_ ->] | [_ [-> | ->]]].
    - rewrite (fetchServices_keeps_set w _ _ Hk). now rewrite !Hk.
    - now rewrite Hk.
    - now rewrite !Hk. }
  simpl. rewrite E. split.
  - intros j Hj. rewrite Set_has_delete, Set_has_add.
    apply String.eqb_neq in Hj. rewrite Hj, String.eqb_sym, Hj.
    reflexivity.
  - apply Set_delete_add.
Qed.

Lemma restart_leaves_other_ids_witness :
  Set_has String.eqb "bot"
    (restartingServices
       (final (run (handleRestart "dashboard") world_200
                 (page_restarting, O))))
  = true.
Proof.
  rewrite (proj1 (restart_leaves_other_ids world_200 page_restarting O
                    "dashboard" (fun n st => eq_refl)) "bot");
    [reflexivity | discriminate].
Defined.

(** X23.  Once [handleRestart] has made its first effect, the card of
    that service shows "Restarting...", its button is disabled, and
    asking again for a restart of the same service does nothing, for as
    long as the id stays in the restarting set. *)
Theorem restart_in_flight_is_debounced (w : World) (st : PageState)
  (n : nat) (serviceId : string) :
  let st1 := apply_action (addRestarting serviceId) st in
  run (restart st1 serviceId) w (st1, n) = (inr tt, (st1, n), [])
  /\ forall p, In p (cards st1) -> id (service p) = serviceId ->
       button_disabled p = true
       /\ actualStatus p = restarting
       /\ statusText (actualStatus p) = "Restarting..."
       /\ button_label p = "Restarting...".
Proof.
  intros st1.
  assert (Hin : Set_has String.eqb serviceId (restartingServices st1)
                = true).
  { unfold st1. simpl. rewrite Set_has_add, String.eqb_refl.
    reflexivity. }
  clearbody st1. split.
  - unfold restart.
    destruct (find _ (cards st1)) as [p|] eqn:Ef; [|reflexivity].
    apply find_some in Ef. destruct Ef as [Hp Hid].
    apply String.eqb_eq in Hid.
    apply button_click_disabled; [exact Hp|]. right. now rewrite Hid.
  - intros p Hp Hid. unfold cards in Hp.
    destruct (loading st1); [contradiction|].
    apply in_map_iff in Hp. destruct Hp as [s [<- Hs]].
    cbn [service] in Hid.
    unfold button_disabled, actualStatus, button_label.
    cbn [isRestarting service]. rewrite Hid, Hin.
    repeat split; reflexivity.
Qed.

Lemma Status_eqb_eq (a b : Status) : Status_eqb a b = true <-> a = b.
Proof. destruct a, b; simpl; split; congruence. Qed.

(** X24.  The overview counts services by the status the server
    reported: online and offline together never exceed the total and
    reach it exactly when no service is starting or restarting; and
    the counts do not change when a service enters or leaves the
    restarting set, although its card then shows "Restarting...". *)
Theorem overview_counts (st : PageState) :
  (onlineCount st + offlineCount st <= totalCount st)%nat
  /\ ((onlineCount st + offlineCount st = totalCount st)%nat <->
      forall s, In s (services st) ->
                status s = online \/ status s = offline)
  /\ (forall serviceId,
        onlineCount (apply_action (addRestarting serviceId) st)
        = onlineCount st
        /\ offlineCount (apply_action (addRestarting serviceId) st)
           = offlineCount st
        /\ onlineCount (apply_action (deleteRestarting serviceId) st)
           = onlineCount st
        /\ offlineCount (apply_action (deleteRestarting serviceId) st)
           = offlineCount st).
Proof.
  unfold onlineCount, offlineCount, totalCount.
  split; [|split; [|intros; repeat split; reflexivity]].
  - induction (services st) as [|s l IH]; simpl; [lia|].
    destruct (status s); simpl; lia.
  - assert (Hle : forall l : list Service,
               (List.length (filter (fun s => Status_eqb (status s) online)
                                    l)
                + List.length (filter (fun s => Status_eqb (status s)
                                                           offline) l)
                <= List.length l)%nat).
    { induction l as [|s l IH]; simpl; [lia|].
      destruct (status s); simpl; lia. }
    induction (services st) as [|s l IH]; simpl.
    + split; [intros _ s [] | reflexivity].
    + specialize (Hle l).
      destruct (status s) eqn:Es; simpl; split.
      * intros E s' [<- | Hs']; [now left|]. apply IH; [lia | exact Hs'].
      * intros Hall. f_equal. apply IH. intros s' Hs'. apply Hall.
        now right.
      * intros E s' [<- | Hs']; [now right|]. apply IH; [lia | exact Hs'].
      * intros Hall. rewrite Nat.add_succ_r. f_equal. apply IH.
        intros s' Hs'. apply Hall. now right.
      * intros E. lia.
      * intros Hall. destruct (Hall s (or_introl eq_refl)); congruence.
      * intros E. lia.
      * intros Hall. destruct (Hall s (or_introl eq_refl)); congruence.
Qed.

(** X25.  Nothing on the page sets [loading] back to true: neither a
    poll nor a restart calls [setLoading(true)].  The Refresh button
    therefore does nothing while the first poll is under way and starts
    a poll whenever it is clicked after a poll has ended. *)
Theorem loading_is_never_set_again (w : World) (st : PageState)
  (n : nat) (serviceId : string) :
  ~ In (setLoading true)
       (actions (trace (run fetchServices w (st, n))))
  /\ ~ In (setLoading true)
          (actions (trace (run (handleRestart serviceId) w (st, n))))
  /\ (loading st = true ->
      run (refresh_click st) w (st, n) = (inr tt, (st, n), []))
  /\ refresh_click (final (run fetchServices w (st, n)))
     = fetchServices.
Proof.
  assert (Hpoll : forall c,
             ~ In (setLoading true)
                  (actions (trace (run fetchServices w c)))).
  { intros [st0 n0] Hin.
    destruct (fetchServices_writes w st0 n0 _ Hin)
      as [[l E] | [[e E] | E]]; discriminate. }
  split; [apply Hpoll|]. split; [|split].
  - destruct (handleRestart_actions w st n serviceId)
      as [between [-> Hb]].
    intros [E | Hin]; [discriminate|].
    apply in_app_or in Hin. destruct Hin as [Hin | [E | []]];
      [|discriminate].
    destruct Hb as [-> | [c ->]]; [contradiction|].
    now apply (Hpoll c).
  - intros Hl. unfold refresh_click. now rewrite Hl.
  - unfold refresh_click.
    destruct (fetchServices_run w st n)
      as [sv [err [m [st' [tr [-> _]]]]]].
    reflexivity.
Qed.

Lemma loading_is_never_set_again_witness :
  run (refresh_click initialPage) world_200 (initialPage, O)
  = (inr tt, (initialPage, O), []).
Proof.
  apply (proj1 (proj2 (proj2 (loading_is_never_set_again world_200
                                initialPage O "bot")))).
  reflexivity.
Defined.

(** X26.  A restart that is accepted leaves the page exactly as a poll
    made after the grace period leaves it: with no other task at work
    and the id not in the restarting set before, the state after
    [handleRestart] is the state after a poll started from the state
    before it.  In particular, if that poll fails, the page shows the
    fallback list and the error although the restart was accepted. *)
Theorem accepted_restart_is_a_late_poll (w : World) (st : PageState)
  (n : nat) (serviceId : string) (r : Response) :
  alone w ->
  Set_has String.eqb serviceId (restartingServices st) = false ->
  net w n "POST" (BOT_API_URL ++ "/services/" ++ serviceId
                  ++ "/restart") = Resolved r ->
  ok r = true ->
  final (run (handleRestart serviceId) w (st, n))
  = final (run fetchServices w (st, S (S n))).
Proof.
  intros Hw Hset Hr Hok.
  destruct (handleRestart_final w st n serviceId)
    as [mid [-> [[_ ->] | [Hfail _]]]].
  - rewrite !Hw.
    rewrite (fetchServices_final_alone w (S (S n)) st
               (apply_action (addRestarting serviceId) st) Hw).
    rewrite (fetchServices_final_alone w (S (S n)) st st Hw) at 3.
    simpl. now rewrite Set_delete_add.
  - rewrite (Hfail r Hr) in Hok. discriminate.
Qed.

Lemma accepted_restart_is_a_late_poll_witness :
  error (final (run (handleRestart "bot") world_restart_then_down
                  (page_idle, O)))
  = Some "Failed to connect to bot API".
Proof.
  rewrite (accepted_restart_is_a_late_poll world_restart_then_down
             page_idle O "bot" _ (fun n st => eq_refl) eq_refl eq_refl
             eq_refl).
  reflexivity.
Defined.

End ServicesMore.
